(** * ITBase64: a shallow embedding of [ITBase64.c] and its properties

    The C file offers two entry points, [ITBase64EncodedStringCreate] and
    [ITBase64DecodedDataCreate], built from the helpers [encodeWord],
    [charToByte], [decodeWord] and [whiteSpaceFreeStringCreate].

    Conventions of the embedding.
    - A [uint8_t] is a [byte]; its numeric value is [byte_val], and a
      conversion of an [int] expression to [uint8_t] is [to_uint8] (reduction
      modulo 256).  A [char] is an [ascii] with numeric value [char_val].
    - An [unsigned int] is a [Z]; [uint] is written wherever the source
      computes a value that can leave the 32-bit range.  The loop counters that
      run below an [unsigned int] bound cannot wrap and carry no [uint].
    - A heap block is a list of cells.  A pointer into a block is the pair of
      the block and an offset; a function that writes through a pointer returns
      the updated block.  [malloc] is assumed to succeed.  The cells of a
      fresh block are indeterminate in C: they are given by a function
      [fresh] from cell positions to values, an argument of every function
      that allocates, and every statement holds for all such functions, so no
      result rests on what a block held before the program stored into it.
      A store outside a block has no defined
      behaviour in C: [store] leaves the block unchanged there, and the
      statements about buffer contents carry the size bound under which every
      store of the program is inside its block.
    - An input array together with its length argument ([data]/[len],
      [string]/[len]) is the list of its [len] elements. *)

From Stdlib Require Import Ascii String.
From Stdlib Require Import ZArith List Bool Lia.
From Stdlib Require Import Strings.Byte.
Import ListNotations.

Local Open Scope char_scope.
Local Open Scope Z_scope.

(** ** Machine integers *)

Definition UINT_MAX : Z := 4294967295.

Definition uint (z : Z) : Z := z mod (UINT_MAX + 1).

Definition byte_val (b : byte) : Z := Z.of_N (Byte.to_N b).

Definition to_uint8 (z : Z) : byte :=
  match Byte.of_N (Z.to_N (z mod 256)) with
  | Some b => b
  | None => x00
  end.

Definition char_val (c : ascii) : Z := Z.of_N (N_of_ascii c).

(** ** Heap blocks *)

Section Blocks.
Context {A : Type}.

Definition load (d : A) (buf : list A) (i : Z) : A := nth (Z.to_nat i) buf d.

Fixpoint update (buf : list A) (n : nat) (v : A) : list A :=
  match buf, n with
  | [], _ => []
  | _ :: tl, O => v :: tl
  | hd :: tl, S n' => hd :: update tl n' v
  end.

Definition store (buf : list A) (i : Z) (v : A) : list A :=
  if i <? 0 then buf else update buf (Z.to_nat i) v.

(** A new block of [n] cells with the indeterminate contents [fresh]. *)
Definition malloc (fresh : nat -> A) (n : Z) : list A :=
  map fresh (seq 0 (Z.to_nat n)).

(** [realloc (buf, n)]: the first [n] cells are kept; cells added at the end
    are indeterminate. *)
Definition realloc (fresh : nat -> A) (buf : list A) (n : Z) : list A :=
  firstn (Z.to_nat n) buf ++ map fresh (seq 0 (Z.to_nat n - length buf)).

(** [memset (&buf[off], v, n)] *)
Fixpoint memset (buf : list A) (off : Z) (v : A) (n : nat) : list A :=
  match n with
  | O => buf
  | S n' => memset (store buf off v) (off + 1) v n'
  end.

(** [memcpy (&dst[doff], &src[soff], n)] *)
Fixpoint memcpy (d : A) (dst : list A) (doff : Z) (src : list A) (soff : Z)
         (n : nat) : list A :=
  match n with
  | O => dst
  | S n' => memcpy d (store dst doff (load d src soff)) (doff + 1) src (soff + 1) n'
  end.
End Blocks.

(** ** The alphabet *)

Definition isWhiteSpace (c : ascii) : bool :=
  Ascii.eqb c " " || Ascii.eqb c "009" || Ascii.eqb c "013" || Ascii.eqb c "010".

Definition ITBase64AdditionsEncodingTable : list ascii :=
  list_ascii_of_string
    "ABCDEFGHIJKLMNOPQRSTUVWXYZabcdefghijklmnopqrstuvwxyz0123456789+/".

Definition table_at (i : Z) : ascii := load "000" ITBase64AdditionsEncodingTable i.

(** ** [encodeWord]

    [bytes]/[boff] is the pointer to the three input bytes, [dest]/[doff] the
    pointer to the four output characters; [lastWord] is the C flag. *)

Definition encodeWord (bytes : list byte) (boff : Z) (dest : list ascii) (doff : Z)
           (lastWord : Z) : list ascii :=
  let b0 := byte_val (load x00 bytes (boff + 0)) in
  let b1 := byte_val (load x00 bytes (boff + 1)) in
  let b2 := byte_val (load x00 bytes (boff + 2)) in
  let dest := store dest (doff + 0) (table_at (Z.shiftr (Z.land b0 0xFC) 2)) in
  let dest := store dest (doff + 1)
                (table_at (Z.lor (Z.shiftl (Z.land b0 0x03) 4)
                                 (Z.shiftr (Z.land b1 0xF0) 4))) in
  let dest := store dest (doff + 2)
                (table_at (Z.lor (Z.shiftl (Z.land b1 0x0F) 2)
                                 (Z.shiftr (Z.land b2 0xC0) 6))) in
  if Ascii.eqb (load "000" dest (doff + 2)) "A" && negb (lastWord =? 0) then
    memset dest (doff + 2) "=" 2
  else
    let dest := store dest (doff + 3) (table_at (Z.land b2 0x3F)) in
    if Ascii.eqb (load "000" dest (doff + 3)) "A" && negb (lastWord =? 0) then
      store dest (doff + 3) "="
    else dest.

(** ** [charToByte] *)

Definition charToByte (c : ascii) : Z :=
  let v := char_val c in
  if (char_val "A" <=? v) && (v <=? char_val "Z") then v - char_val "A"
  else if (char_val "a" <=? v) && (v <=? char_val "z") then v - char_val "a" + 26
  else if (char_val "0" <=? v) && (v <=? char_val "9") then v - char_val "0" + 52
  else if Ascii.eqb c "+" then 62
  else if Ascii.eqb c "/" then 63
  else if Ascii.eqb c "=" then 0
  else 0xff.

(** ** [decodeWord]

    Returns the number of bytes decoded together with the updated [dest]. *)

Definition decodeWord (chars : list ascii) (coff : Z) (dest : list byte) (doff : Z)
  : Z * list byte :=
  let c0 := charToByte (load "000" chars (coff + 0)) in
  let c1 := charToByte (load "000" chars (coff + 1)) in
  if (c0 =? 0xff) || (c1 =? 0xff) then (0, dest)
  else
    let dest := store dest (doff + 0)
                  (to_uint8 (Z.lor (Z.shiftl c0 2) (Z.shiftr (Z.land c1 0x30) 4))) in
    if Ascii.eqb (load "000" chars (coff + 2)) "=" then (1, dest)
    else
      let c2 := charToByte (load "000" chars (coff + 2)) in
      if c2 =? 0xff then (0, dest)
      else
        let dest := store dest (doff + 1)
                      (to_uint8 (Z.lor (Z.shiftl (Z.land c1 0x0f) 4)
                                       (Z.shiftr (Z.land c2 0x3c) 2))) in
        if Ascii.eqb (load "000" chars (coff + 3)) "=" then (2, dest)
        else
          let c3 := charToByte (load "000" chars (coff + 3)) in
          if c3 =? 0xff then (0, dest)
          else
            (3, store dest (doff + 2)
                  (to_uint8 (Z.lor (Z.shiftl (Z.land c2 0x03) 6) c3))).

(** ** [whiteSpaceFreeStringCreate]

    The [for] loop visits [str[0]], ..., [str[len-1]] in order; its state is
    the block [destPtr] and the counter [resultLen].  The result is the block
    [*dest] and the returned length. *)

Definition whiteSpaceFree_step (st : list ascii * Z) (c : ascii) : list ascii * Z :=
  let '(destPtr, resultLen) := st in
  if negb (isWhiteSpace c) then (store destPtr resultLen c, resultLen + 1)
  else (destPtr, resultLen).

Definition whiteSpaceFreeStringCreate (fresh : nat -> ascii) (str : list ascii)
  : list ascii * Z :=
  let len := Z.of_nat (length str) in
  fold_left whiteSpaceFree_step str (malloc fresh len, 0).

(** ** [ITBase64EncodedStringCreate]

    [encode_loop] is the [while] loop.  Each turn moves [srcIndex] three bytes
    closer to [effLen <= len], so [len] turns are more than the loop can take:
    it is run with that many and always leaves through its own test. *)

Fixpoint encode_loop (fuel : nat) (ptr : list byte) (effLen : Z)
         (srcIndex destIndex : Z) (dest : list ascii) : list ascii :=
  match fuel with
  | O => dest
  | S fuel' =>
      if srcIndex <? effLen then
        let dest := encodeWord ptr srcIndex dest destIndex 0 in
        encode_loop fuel' ptr effLen (srcIndex + 3) (uint (destIndex + 4)) dest
      else dest
  end.

Definition ITBase64EncodedStringCreate (fresh : nat -> ascii) (data : list byte)
  : list ascii * Z :=
  let len := Z.of_nat (length data) in
  let resultSize := uint ((len / 3 + (if len mod 3 =? 0 then 0 else 1)) * 4) in
  let restLen := len mod 3 in
  let effLen := len - restLen in
  let dest := malloc fresh (uint (resultSize + 1)) in
  let dest := encode_loop (length data) data effLen 0 0 dest in
  let dest :=
    if negb (restLen =? 0) then
      let restWord := [x00; x00; x00] in
      let restWord := memcpy x00 restWord 0 data effLen (Z.to_nat restLen) in
      encodeWord restWord 0 dest (uint (resultSize - 4)) 1
    else dest in
  let dest := store dest resultSize "000" in
  (dest, resultSize).

(** ** [ITBase64DecodedDataCreate]

    [decode_state] holds the local variables the [while] loop changes and
    [decode_loop] is that loop, leaving through its test or through [break].
    It is run with [len] turns, more than the [effLen / 4] it can take
    (lemma [decode_loop_ext] shows that further turns change nothing). *)

Record decode_state : Type := mkDecodeState {
  srcIndex : Z;
  destIndex : Z;
  bytesDecoded : Z;
  dest : list byte
}.

Fixpoint decode_loop (fuel : nat) (characters : list ascii) (effLen : Z)
         (st : decode_state) : decode_state :=
  match fuel with
  | O => st
  | S fuel' =>
      if srcIndex st <? effLen then
        let '(n, d) := decodeWord characters (srcIndex st) (dest st) (destIndex st) in
        if n <? 3 then mkDecodeState (srcIndex st) (destIndex st) n d
        else decode_loop fuel' characters effLen
               (mkDecodeState (srcIndex st + 4) (destIndex st + 3) n d)
      else st
  end.

(** The result is the returned pointer ([None] for [NULL]) and the value
    stored in [*dataLength]. *)
Definition ITBase64DecodedDataCreate (fresh_chars : nat -> ascii)
           (fresh_bytes : nat -> byte) (string : list ascii)
  : option (list byte) * Z :=
  let '(characters, effLen) := whiteSpaceFreeStringCreate fresh_chars string in
  let maxLen := uint (3 * effLen) / 4 in
  if negb (effLen mod 4 =? 0) then (None, 0)
  else
    let st := decode_loop (length string) characters effLen
                (mkDecodeState 0 0 0 (malloc fresh_bytes maxLen)) in
    if (0 <? bytesDecoded st) && (bytesDecoded st <? 3) then
      let dataLength := uint (destIndex st + bytesDecoded st) in
      (Some (realloc fresh_bytes (dest st) dataLength), dataLength)
    else if bytesDecoded st =? 0 then (None, 0)
    else (Some (dest st), destIndex st).

(** ** Text literals *)

Definition text (s : String.string) : list ascii := list_ascii_of_string s.

(** * Auxiliary definitions for the statements *)

(** ** One encoded word

    [sextets] are the four table indices [encodeWord] computes, [pad_word]
    its two padding tests, and [encoded_word] the four characters it leaves
    in [dest[0..3]]. *)

Definition pad_word (t0 t1 t2 t3 : ascii) (lastWord : Z) : list ascii :=
  if Ascii.eqb t2 "A" && negb (lastWord =? 0) then [t0; t1; "="; "="]
  else if Ascii.eqb t3 "A" && negb (lastWord =? 0) then [t0; t1; t2; "="]
  else [t0; t1; t2; t3].

Definition sextets (b0 b1 b2 : byte) : Z * Z * Z * Z :=
  (Z.shiftr (Z.land (byte_val b0) 0xFC) 2,
   Z.lor (Z.shiftl (Z.land (byte_val b0) 0x03) 4) (Z.shiftr (Z.land (byte_val b1) 0xF0) 4),
   Z.lor (Z.shiftl (Z.land (byte_val b1) 0x0F) 2) (Z.shiftr (Z.land (byte_val b2) 0xC0) 6),
   Z.land (byte_val b2) 0x3F).

Definition encoded_word (b0 b1 b2 : byte) (lastWord : Z) : list ascii :=
  let '(s0, s1, s2, s3) := sextets b0 b1 b2 in
  pad_word (table_at s0) (table_at s1) (table_at s2) (table_at s3) lastWord.

(** ** The encoded text

    [encoded_words] is what the [while] loop of the encoder writes for a run
    of complete 3-byte words; [encoded_rest] is the word written for the
    [restLen] trailing bytes, and [encoded_text] the whole text, without its
    terminator. *)

Fixpoint encoded_words (bs : list byte) : list ascii :=
  match bs with
  | b0 :: b1 :: b2 :: rest => encoded_word b0 b1 b2 0 ++ encoded_words rest
  | _ => []
  end.

Definition encoded_rest (bs : list byte) : list ascii :=
  match bs with
  | [] => []
  | [b0] => encoded_word b0 x00 x00 1
  | b0 :: b1 :: _ => encoded_word b0 b1 x00 1
  end.

Definition encoded_text (data : list byte) : list ascii :=
  let effLen := (length data - length data mod 3)%nat in
  encoded_words (firstn effLen data) ++ encoded_rest (skipn effLen data).

(** [4 * ceil (L / 3)] *)
Definition encoded_size (L : Z) : Z := 4 * ((L + 2) / 3).

(** A table index: a value of six bits. *)
Definition is_sextet (z : Z) : bool := (0 <=? z) && (z <? 64).

(** ** The compacted text and its groups

    [strip] is the text without its whitespace.  For one group of four
    characters, [word_yield] is the count [decodeWord] returns, [word_cells]
    the contents it leaves in [dest[0..2]], and [word_bytes] the bytes it
    decoded.  [all_full] holds of a text made of complete groups that yield
    three bytes each, and [decoded_bytes] collects the bytes of the groups of
    a text. *)

Definition strip (str : list ascii) : list ascii :=
  filter (fun c => negb (isWhiteSpace c)) str.

Definition word_cells (c0 c1 c2 c3 : ascii) (d0 d1 d2 : byte) : list byte :=
  snd (decodeWord [c0; c1; c2; c3] 0 [d0; d1; d2] 0).

Definition word_yield (c0 c1 c2 c3 : ascii) : Z :=
  fst (decodeWord [c0; c1; c2; c3] 0 [x00; x00; x00] 0).

Definition word_bytes (c0 c1 c2 c3 : ascii) : list byte :=
  firstn (Z.to_nat (word_yield c0 c1 c2 c3)) (word_cells c0 c1 c2 c3 x00 x00 x00).

Fixpoint all_full (cs : list ascii) : bool :=
  match cs with
  | [] => true
  | c0 :: c1 :: c2 :: c3 :: rest => (word_yield c0 c1 c2 c3 =? 3) && all_full rest
  | _ => false
  end.

Fixpoint decoded_bytes (cs : list ascii) : list byte :=
  match cs with
  | c0 :: c1 :: c2 :: c3 :: rest => word_bytes c0 c1 c2 c3 ++ decoded_bytes rest
  | _ => []
  end.

(** ** Whitespace insertion

    [ws_inserted t t'] holds when [t'] is [t] with whitespace characters
    inserted at arbitrary positions. *)

Inductive ws_inserted : list ascii -> list ascii -> Prop :=
| ws_inserted_nil : ws_inserted [] []
| ws_inserted_keep c t t' : ws_inserted t t' -> ws_inserted (c :: t) (c :: t')
| ws_inserted_here w t t' :
    isWhiteSpace w = true -> ws_inserted t t' -> ws_inserted t (w :: t').

(** ** The word decoder as the specification words it

    [alphabet_value] is the inverse of the alphabet table: the position of a
    character among the 64 symbols, the value 0 for the padding character,
    and nothing for any other character.  [decodeWord_spec] follows the
    description of the word decoder sentence by sentence; it is compared with
    [decodeWord] below. *)

Fixpoint index_of (c : ascii) (tbl : list ascii) (i : Z) : option Z :=
  match tbl with
  | [] => None
  | x :: tbl' => if Ascii.eqb c x then Some i else index_of c tbl' (i + 1)
  end.

Definition alphabet_value (c : ascii) : option Z :=
  match index_of c ITBase64AdditionsEncodingTable 0 with
  | Some v => Some v
  | None => if Ascii.eqb c "=" then Some 0 else None
  end.

Definition decodeWord_spec (c0 c1 c2 c3 : ascii) (dest : list byte) : Z * list byte :=
  match alphabet_value c0, alphabet_value c1 with
  | Some v0, Some v1 =>
      let dest := store dest 0 (to_uint8 (Z.lor (Z.shiftl v0 2) (Z.shiftr v1 4))) in
      if Ascii.eqb c2 "=" then (1, dest)
      else
        match alphabet_value c2 with
        | None => (0, dest)
        | Some v2 =>
            let dest := store dest 1
                          (to_uint8 (Z.lor (Z.shiftl (Z.land v1 0x0F) 4) (Z.shiftr v2 2))) in
            if Ascii.eqb c3 "=" then (2, dest)
            else
              match alphabet_value c3 with
              | None => (0, dest)
              | Some v3 =>
                  (3, store dest 2 (to_uint8 (Z.lor (Z.shiftl (Z.land v2 0x03) 6) v3)))
              end
        end
  | _, _ => (0, dest)
  end.

(** ** The text handed back by the encoder

    The characters of the returned block counted by [*stringLength]. *)

Definition encoded_string (fresh : nat -> ascii) (data : list byte) : list ascii :=
  let '(dest, stringLength) := ITBase64EncodedStringCreate fresh data in
  firstn (Z.to_nat stringLength) dest.

(** ** The decoder as a function of the compacted text

    [decode_scan] goes through the groups of a text the way the loop of the
    decoder does: it stops at the first group that yields fewer than three
    bytes and returns the last count together with the bytes decoded so far
    ([bd] is the count before the first group).  [decoded_result] is the pair
    the decoder hands back for a compacted text. *)

Fixpoint decode_scan (cs : list ascii) (bd : Z) : Z * list byte :=
  match cs with
  | c0 :: c1 :: c2 :: c3 :: rest =>
      let n := word_yield c0 c1 c2 c3 in
      if n <? 3 then (n, word_bytes c0 c1 c2 c3)
      else let '(m, bs) := decode_scan rest n in (m, word_bytes c0 c1 c2 c3 ++ bs)
  | _ => (bd, [])
  end.

Definition decoded_result (cs : list ascii) : option (list byte) * Z :=
  if negb (Z.of_nat (length cs) mod 4 =? 0) then (None, 0)
  else
    let '(n, bs) := decode_scan cs 0 in
    if n =? 0 then (None, 0) else (Some bs, Z.of_nat (length bs)).

(** ** Alphabet symbols *)

Definition in_alphabet (c : ascii) : bool :=
  existsb (Ascii.eqb c) ITBase64AdditionsEncodingTable.

(** ** The bytes assembled by the word decoder

    The three values [decodeWord] stores for the 6-bit values of its four
    characters. *)

Definition pack0 (s0 s1 : Z) : Z := Z.lor (Z.shiftl s0 2) (Z.shiftr (Z.land s1 0x30) 4).

Definition pack1 (s1 s2 : Z) : Z :=
  Z.lor (Z.shiftl (Z.land s1 0x0f) 4) (Z.shiftr (Z.land s2 0x3c) 2).

Definition pack2 (s2 s3 : Z) : Z := Z.lor (Z.shiftl (Z.land s2 0x03) 6) s3.
(** * Properties *)

(** ** Test vectors *)

Example encode_Man fresh :
  ITBase64EncodedStringCreate fresh ["M"%byte; "a"%byte; "n"%byte]
  = (text "TWFu" ++ ["000"], 4).
Proof. reflexivity. Qed.

Example encode_Ma fresh :
  ITBase64EncodedStringCreate fresh ["M"%byte; "a"%byte] = (text "TWE=" ++ ["000"], 4).
Proof. reflexivity. Qed.

Example encode_M fresh :
  ITBase64EncodedStringCreate fresh ["M"%byte] = (text "TQ==" ++ ["000"], 4).
Proof. reflexivity. Qed.

Example decode_ManMan fresh_chars fresh_bytes :
  ITBase64DecodedDataCreate fresh_chars fresh_bytes (text "TWFuTWFu")
  = (Some ["M"%byte; "a"%byte; "n"%byte; "M"%byte; "a"%byte; "n"%byte], 6).
Proof. reflexivity. Qed.

Example decode_bad_char fresh_chars fresh_bytes :
  ITBase64DecodedDataCreate fresh_chars fresh_bytes (text "TWF!") = (None, 0).
Proof. reflexivity. Qed.

(** ** Blocks *)

Section BlockFacts.
Context {A : Type}.
Implicit Types (buf pre l : list A) (v d : A).

Lemma update_app_off pre l n v :
  update (pre ++ l) (length pre + n) v = pre ++ update l n v.
Proof.
  induction pre as [|hd tl IH]; simpl; [reflexivity | now rewrite IH].
Qed.

Lemma store_app_off pre l k v :
  0 <= k -> store (pre ++ l) (Z.of_nat (length pre) + k) v = pre ++ store l k v.
Proof.
  intros Hk. unfold store.
  destruct (Z.ltb_spec (Z.of_nat (length pre) + k) 0); [lia|].
  destruct (Z.ltb_spec k 0); [lia|].
  rewrite Z2Nat.inj_add, Nat2Z.id by lia. apply update_app_off.
Qed.

Lemma load_app_off d pre l k :
  0 <= k -> load d (pre ++ l) (Z.of_nat (length pre) + k) = load d l k.
Proof.
  intros Hk. unfold load.
  rewrite Z2Nat.inj_add, Nat2Z.id by lia.
  rewrite app_nth2 by lia. f_equal. lia.
Qed.

Lemma load_app_l d l suf k :
  0 <= k < Z.of_nat (length l) -> load d (l ++ suf) k = load d l k.
Proof.
  intros Hk. unfold load. apply app_nth1. lia.
Qed.
End BlockFacts.

(** ** Small offsets *)

Section SmallOffsets.
Context {A : Type}.
Implicit Types (l : list A) (x v d : A).

Lemma load_at0 d x l : load d (x :: l) 0 = x.
Proof. reflexivity. Qed.
Lemma load_at1 d x0 x l : load d (x0 :: x :: l) 1 = x.
Proof. reflexivity. Qed.
Lemma load_at2 d x0 x1 x l : load d (x0 :: x1 :: x :: l) 2 = x.
Proof. reflexivity. Qed.
Lemma load_at3 d x0 x1 x2 x l : load d (x0 :: x1 :: x2 :: x :: l) 3 = x.
Proof. reflexivity. Qed.
Lemma store_at0 x l v : store (x :: l) 0 v = v :: l.
Proof. reflexivity. Qed.
Lemma store_at1 x0 x l v : store (x0 :: x :: l) 1 v = x0 :: v :: l.
Proof. reflexivity. Qed.
Lemma store_at2 x0 x1 x l v : store (x0 :: x1 :: x :: l) 2 v = x0 :: x1 :: v :: l.
Proof. reflexivity. Qed.
Lemma store_at3 x0 x1 x2 x l v :
  store (x0 :: x1 :: x2 :: x :: l) 3 v = x0 :: x1 :: x2 :: v :: l.
Proof. reflexivity. Qed.
End SmallOffsets.

Create Rewrite HintDb block.
#[local] Hint Rewrite @load_at0 @load_at1 @load_at2 @load_at3
  @store_at0 @store_at1 @store_at2 @store_at3 : block.

Ltac block_simpl :=
  repeat first
    [ rewrite store_app_off by lia
    | rewrite load_app_off by lia
    | progress autorewrite with block ].

(** ** The word encoder on a framed block *)

Lemma encodeWord_frame bpre b0 b1 b2 bsuf dpre d0 d1 d2 d3 dsuf lastWord :
  encodeWord (bpre ++ b0 :: b1 :: b2 :: bsuf) (Z.of_nat (length bpre))
             (dpre ++ d0 :: d1 :: d2 :: d3 :: dsuf) (Z.of_nat (length dpre)) lastWord
  = dpre ++ encoded_word b0 b1 b2 lastWord ++ dsuf.
Proof.
  unfold encoded_word, sextets, pad_word, encodeWord, memset.
  rewrite <- !Z.add_assoc. change (2 + 1) with 3.
  block_simpl.
  repeat match goal with
         | |- context [if ?c then _ else _] => destruct c
         end; block_simpl; reflexivity.
Qed.

(** ** The encoder *)

Lemma pad_word_length t0 t1 t2 t3 lastWord :
  length (pad_word t0 t1 t2 t3 lastWord) = 4%nat.
Proof.
  unfold pad_word.
  repeat match goal with |- context [if ?c then _ else _] => destruct c end; reflexivity.
Qed.

Lemma encoded_word_length b0 b1 b2 lastWord :
  length (encoded_word b0 b1 b2 lastWord) = 4%nat.
Proof. unfold encoded_word, sextets. apply pad_word_length. Qed.

Lemma uint_small z : 0 <= z <= UINT_MAX -> uint z = z.
Proof. intros Hz. unfold uint. apply Z.mod_small. unfold UINT_MAX in *. lia. Qed.

Lemma encode_loop_done fuel ptr effLen srcIndex destIndex dest :
  effLen <= srcIndex -> encode_loop fuel ptr effLen srcIndex destIndex dest = dest.
Proof.
  intros Hle. destruct fuel as [|fuel]; simpl; [reflexivity|].
  destruct (Z.ltb_spec srcIndex effLen); [lia | reflexivity].
Qed.

Lemma encode_loop_words k :
  forall fuel bpre full bsuf dpre junk dsuf,
    length full = (3 * k)%nat -> length junk = (4 * k)%nat -> (k <= fuel)%nat ->
    Z.of_nat (length dpre) + 4 * Z.of_nat k <= UINT_MAX ->
    encode_loop fuel (bpre ++ full ++ bsuf)
                (Z.of_nat (length bpre) + 3 * Z.of_nat k)
                (Z.of_nat (length bpre)) (Z.of_nat (length dpre))
                (dpre ++ junk ++ dsuf)
    = dpre ++ encoded_words full ++ dsuf.
Proof.
  induction k as [|k IH]; intros fuel bpre full bsuf dpre junk dsuf Hfull Hjunk Hfuel Hmax.
  - destruct full; [|discriminate]. destruct junk; [|discriminate].
    apply encode_loop_done. lia.
  - destruct full as [|b0 [|b1 [|b2 full]]]; simpl in Hfull; try lia.
    destruct junk as [|j0 [|j1 [|j2 [|j3 junk]]]]; simpl in Hjunk; try lia.
    destruct fuel as [|fuel]; [lia|].
    cbn [encode_loop].
    destruct (Z.ltb_spec (Z.of_nat (length bpre))
                (Z.of_nat (length bpre) + 3 * Z.of_nat (S k))); [|lia].
    cbn [app]. rewrite encodeWord_frame.
    rewrite uint_small by lia.
    specialize (IH fuel (bpre ++ [b0; b1; b2]) full bsuf
                   (dpre ++ encoded_word b0 b1 b2 0) junk dsuf).
    rewrite !length_app, encoded_word_length in IH. cbn [length] in IH.
    rewrite <- !app_assoc in IH. cbn [app] in IH.
    replace (Z.of_nat (length bpre) + 3) with (Z.of_nat (length bpre + 3)) by lia.
    replace (Z.of_nat (length dpre) + 4) with (Z.of_nat (length dpre + 4)) by lia.
    replace (Z.of_nat (length bpre) + 3 * Z.of_nat (S k))
      with (Z.of_nat (length bpre + 3) + 3 * Z.of_nat k) by lia.
    rewrite IH by lia. cbn [encoded_words]. now rewrite <- app_assoc.
Qed.

Lemma result_size_closed_form L :
  0 <= L -> (L / 3 + (if L mod 3 =? 0 then 0 else 1)) * 4 = encoded_size L.
Proof.
  intros HL. unfold encoded_size.
  destruct (Z.eqb_spec (L mod 3) 0); Z.div_mod_to_equations; lia.
Qed.

Lemma encoded_words_length k :
  forall bs, length bs = (3 * k)%nat -> length (encoded_words bs) = (4 * k)%nat.
Proof.
  induction k as [|k IH]; intros bs Hbs.
  - destruct bs; [reflexivity | discriminate].
  - destruct bs as [|b0 [|b1 [|b2 bs]]]; simpl in Hbs; try lia.
    cbn [encoded_words]. rewrite length_app, encoded_word_length, (IH bs); lia.
Qed.

Lemma split_words (data : list byte) :
  exists k full rest,
    data = full ++ rest /\ length full = (3 * k)%nat /\ (length rest < 3)%nat /\
    firstn (length data - length data mod 3) data = full /\
    skipn (length data - length data mod 3) data = rest /\
    (length data mod 3)%nat = length rest.
Proof.
  pose (k := (length data / 3)%nat). pose (r := (length data mod 3)%nat).
  assert (Hdm : length data = (3 * k + r)%nat) by apply Nat.div_mod_eq.
  assert (Hr : (r < 3)%nat) by (apply Nat.mod_upper_bound; lia).
  exists k, (firstn (3 * k) data), (skipn (3 * k) data).
  replace (length data - length data mod 3)%nat with (3 * k)%nat by (fold r; lia).
  rewrite firstn_skipn, length_firstn, length_skipn. fold r.
  repeat split; lia.
Qed.

Lemma encoded_text_length data :
  Z.of_nat (length (encoded_text data)) = encoded_size (Z.of_nat (length data)).
Proof.
  unfold encoded_text.
  destruct (split_words data) as (k & full & rest & Hdata & Hf & Hr & -> & -> & _).
  rewrite length_app, (encoded_words_length k) by assumption.
  rewrite Hdata, length_app, Hf. unfold encoded_size.
  destruct rest as [|r0 [|r1 [|r2 rest]]]; simpl in Hr; try lia;
    cbn [encoded_rest]; rewrite ?encoded_word_length; cbn [length];
    Z.div_mod_to_equations; lia.
Qed.

Lemma fresh_cells_length {A} (fresh : nat -> A) off n :
  length (map fresh (seq off n)) = n.
Proof. now rewrite length_map, length_seq. Qed.

Lemma malloc_split {A} (fresh : nat -> A) (n m : nat) :
  malloc fresh (Z.of_nat (n + m)) = map fresh (seq 0 n) ++ map fresh (seq n m).
Proof. unfold malloc. now rewrite Nat2Z.id, seq_app, map_app. Qed.

Lemma encodeWord_rest b0 b1 b2 dpre d0 d1 d2 d3 dsuf lastWord :
  encodeWord [b0; b1; b2] 0 (dpre ++ d0 :: d1 :: d2 :: d3 :: dsuf)
             (Z.of_nat (length dpre)) lastWord
  = dpre ++ encoded_word b0 b1 b2 lastWord ++ dsuf.
Proof. exact (encodeWord_frame [] b0 b1 b2 [] dpre d0 d1 d2 d3 dsuf lastWord). Qed.

Lemma store_terminator (pre : list ascii) c n :
  n = Z.of_nat (length pre) -> store (pre ++ [c]) n "000" = pre ++ ["000"].
Proof.
  intros ->. replace (Z.of_nat (length pre)) with (Z.of_nat (length pre) + 0) by lia.
  rewrite store_app_off by lia. reflexivity.
Qed.

Lemma encode_correct fresh data :
  encoded_size (Z.of_nat (length data)) <= UINT_MAX ->
  ITBase64EncodedStringCreate fresh data
  = (encoded_text data ++ ["000"], encoded_size (Z.of_nat (length data))).
Proof.
  intros Hfit. unfold ITBase64EncodedStringCreate, encoded_text.
  destruct (split_words data) as (k & full & rest & Hdata & Hf & Hr & -> & -> & Hmodn).
  assert (Hlen : length data = (3 * k + length rest)%nat)
    by (rewrite Hdata at 1; rewrite length_app; lia).
  assert (Hmod : Z.of_nat (length data) mod 3 = Z.of_nat (length rest)).
  { rewrite Hlen. Z.div_mod_to_equations. lia. }
  rewrite result_size_closed_form by lia.
  remember (encoded_size (Z.of_nat (length data))) as N eqn:EN.
  pose (tail := if Nat.eqb (length rest) 0 then 1%nat else 5%nat).
  assert (HN : N + 1 = Z.of_nat (4 * k + tail)).
  { subst N tail. unfold encoded_size. rewrite Hlen.
    destruct (Nat.eqb_spec (length rest) 0); Z.div_mod_to_equations; lia. }
  assert (Htail : tail = 1%nat \/ tail = 5%nat)
    by (unfold tail; destruct (Nat.eqb (length rest) 0); auto).
  assert (HN0 : 0 <= N) by lia.
  rewrite (uint_small N), (uint_small (N + 1)) by (unfold UINT_MAX in *; lia).
  rewrite Hmod.
  assert (Hloop : encode_loop (length data) data
                    (Z.of_nat (length data) - Z.of_nat (length rest))
                    0 0 (malloc fresh (N + 1))
                  = encoded_words full ++ map fresh (seq (4 * k) tail)).
  { rewrite HN, malloc_split.
    replace (Z.of_nat (length data) - Z.of_nat (length rest))
      with (0 + 3 * Z.of_nat k) by lia.
    rewrite Hdata at 2.
    apply (encode_loop_words k (length data) [] full rest []
                             (map fresh (seq 0 (4 * k))) _);
      try assumption; try apply fresh_cells_length; try lia.
    cbn [length]. unfold UINT_MAX in *. lia. }
  rewrite Hloop.
  assert (Hwords : length (encoded_words full) = (4 * k)%nat)
    by (apply encoded_words_length; assumption).
  f_equal. clear Hloop EN.
  destruct rest as [|r0 [|r1 [|r2 rest']]]; cbn [length] in *; try lia;
    subst tail;
    cbn [Nat.eqb map seq encoded_rest negb Z.eqb Z.of_nat Pos.of_succ_nat Pos.succ] in *.
  - rewrite app_nil_r. apply store_terminator. lia.
  - change (Z.to_nat 1) with 1%nat. cbn [memcpy].
    replace (Z.of_nat (length data) - 1) with (Z.of_nat (length full) + 0) by lia.
    rewrite Hdata, load_app_off by lia. autorewrite with block.
    rewrite uint_small by (unfold UINT_MAX in *; lia).
    replace (N - 4) with (Z.of_nat (length (encoded_words full))) by lia.
    rewrite encodeWord_rest, app_assoc.
    apply store_terminator. rewrite length_app, encoded_word_length. lia.
  - change (Z.to_nat 2) with 2%nat. cbn [memcpy].
    replace (Z.of_nat (length data) - 2) with (Z.of_nat (length full) + 0) by lia.
    rewrite <- Z.add_assoc. change (0 + 1) with 1.
    rewrite Hdata, !load_app_off by lia. autorewrite with block.
    rewrite uint_small by (unfold UINT_MAX in *; lia).
    replace (N - 4) with (Z.of_nat (length (encoded_words full))) by lia.
    rewrite encodeWord_rest, app_assoc.
    apply store_terminator. rewrite length_app, encoded_word_length. lia.
Qed.

(** ** Exhaustive checks over bounded ranges *)

Lemma forallb_range (f : Z -> bool) (n : nat) :
  forallb f (map Z.of_nat (seq 0 n)) = true ->
  forall z, 0 <= z < Z.of_nat n -> f z = true.
Proof.
  intros Hall z Hz. rewrite forallb_forall in Hall. apply Hall.
  apply in_map_iff. exists (Z.to_nat z). split; [lia|].
  apply in_seq. lia.
Qed.

Lemma forallb_range2 (f : Z -> Z -> bool) (n m : nat) :
  forallb (fun x => forallb (f x) (map Z.of_nat (seq 0 m))) (map Z.of_nat (seq 0 n)) = true ->
  forall x y, 0 <= x < Z.of_nat n -> 0 <= y < Z.of_nat m -> f x y = true.
Proof.
  intros Hall x y Hx Hy.
  apply (forallb_range (f x) m); [|assumption].
  apply (forallb_range (fun x => forallb (f x) (map Z.of_nat (seq 0 m))) n); assumption.
Qed.

Lemma byte_val_range b : 0 <= byte_val b < 256.
Proof.
  unfold byte_val. pose proof (Byte.to_N_bounded b). lia.
Qed.

Lemma sextets_range b0 b1 b2 :
  let '(s0, s1, s2, s3) := sextets b0 b1 b2 in
  is_sextet s0 = true /\ is_sextet s1 = true /\ is_sextet s2 = true /\ is_sextet s3 = true.
Proof.
  unfold sextets.
  pose proof (byte_val_range b0). pose proof (byte_val_range b1).
  pose proof (byte_val_range b2).
  repeat split.
  - apply (forallb_range (fun x => is_sextet (Z.shiftr (Z.land x 0xFC) 2)) 256);
      [vm_compute; reflexivity | assumption].
  - apply (forallb_range2
             (fun x y => is_sextet (Z.lor (Z.shiftl (Z.land x 0x03) 4)
                                          (Z.shiftr (Z.land y 0xF0) 4))) 256 256);
      [vm_compute; reflexivity | assumption | assumption].
  - apply (forallb_range2
             (fun x y => is_sextet (Z.lor (Z.shiftl (Z.land x 0x0F) 2)
                                          (Z.shiftr (Z.land y 0xC0) 6))) 256 256);
      [vm_compute; reflexivity | assumption | assumption].
  - apply (forallb_range (fun x => is_sextet (Z.land x 0x3F)) 256);
      [vm_compute; reflexivity | assumption].
Qed.






(** ** The whitespace filter *)

Lemma whiteSpaceFree_fold str :
  forall done junk,
    (length str <= length junk)%nat ->
    fold_left whiteSpaceFree_step str (done ++ junk, Z.of_nat (length done))
    = (done ++ strip str ++ skipn (length (strip str)) junk,
       Z.of_nat (length done) + Z.of_nat (length (strip str))).
Proof.
  induction str as [|c str IH]; intros done junk Hlen.
  - cbn. f_equal. lia.
  - cbn [fold_left whiteSpaceFree_step strip filter].
    destruct (isWhiteSpace c); cbn [negb].
    + apply IH. cbn [length] in Hlen. lia.
    + destruct junk as [|j junk]; cbn [length] in Hlen; [lia|].
      replace (Z.of_nat (length done)) with (Z.of_nat (length done) + 0) at 1 by lia.
      rewrite store_app_off by lia. autorewrite with block.
      specialize (IH (done ++ [c]) junk).
      rewrite length_app in IH. cbn [length] in IH.
      replace (Z.of_nat (length done) + 1) with (Z.of_nat (length done + 1)) by lia.
      rewrite <- app_assoc in IH. cbn [app] in IH.
      rewrite IH by lia. fold (strip str). rewrite <- app_assoc. cbn [length skipn app].
      f_equal. lia.
Qed.

Lemma whiteSpaceFreeStringCreate_strip fresh str :
  whiteSpaceFreeStringCreate fresh str
  = (strip str
     ++ map fresh (seq (length (strip str)) (length str - length (strip str))),
     Z.of_nat (length (strip str))).
Proof.
  unfold whiteSpaceFreeStringCreate.
  pose proof (whiteSpaceFree_fold str [] (malloc fresh (Z.of_nat (length str)))) as Hfold.
  cbn [app length Z.of_nat Z.add] in Hfold.
  rewrite Hfold by (unfold malloc; rewrite fresh_cells_length; lia). f_equal. f_equal.
  assert (Hle : (length (strip str) <= length str)%nat) by apply filter_length_le.
  replace (length str) with (length (strip str) + (length str - length (strip str)))%nat
    at 1 by lia.
  rewrite malloc_split, skipn_app, fresh_cells_length, Nat.sub_diag.
  rewrite skipn_all2 by (rewrite fresh_cells_length; lia). reflexivity.
Qed.

(** ** The word decoder on a framed block *)

Ltac split_ifs :=
  repeat match goal with
         | |- context [if ?c then _ else _] => destruct c
         end.

Lemma decodeWord_yield cpre c0 c1 c2 c3 csuf dest doff :
  fst (decodeWord (cpre ++ c0 :: c1 :: c2 :: c3 :: csuf) (Z.of_nat (length cpre)) dest doff)
  = word_yield c0 c1 c2 c3.
Proof.
  unfold word_yield, decodeWord. cbn [Z.add]. block_simpl.
  split_ifs; reflexivity.
Qed.

Lemma decodeWord_frame cpre c0 c1 c2 c3 csuf dpre d0 d1 d2 dsuf :
  decodeWord (cpre ++ c0 :: c1 :: c2 :: c3 :: csuf) (Z.of_nat (length cpre))
             (dpre ++ d0 :: d1 :: d2 :: dsuf) (Z.of_nat (length dpre))
  = (word_yield c0 c1 c2 c3, dpre ++ word_cells c0 c1 c2 c3 d0 d1 d2 ++ dsuf).
Proof.
  unfold word_yield, word_cells, decodeWord. cbn [Z.add]. block_simpl.
  split_ifs; reflexivity.
Qed.

Lemma word_cells_bytes c0 c1 c2 c3 d0 d1 d2 :
  0 < word_yield c0 c1 c2 c3 ->
  word_cells c0 c1 c2 c3 d0 d1 d2
  = word_bytes c0 c1 c2 c3 ++ skipn (Z.to_nat (word_yield c0 c1 c2 c3)) [d0; d1; d2].
Proof.
  unfold word_bytes, word_yield, word_cells, decodeWord. cbn [Z.add]. block_simpl.
  split_ifs; cbn [fst snd]; intros Hpos; try lia; reflexivity.
Qed.

Lemma word_bytes_length c0 c1 c2 c3 :
  length (word_bytes c0 c1 c2 c3) = Z.to_nat (word_yield c0 c1 c2 c3).
Proof.
  unfold word_bytes, word_yield, word_cells, decodeWord. cbn [Z.add]. block_simpl.
  split_ifs; reflexivity.
Qed.

(** ** The decoding loop *)

Lemma all_full_length cs : all_full cs = true -> exists k, length cs = (4 * k)%nat.
Proof.
  remember (length cs) as n eqn:En. revert cs En.
  induction n as [n IH] using lt_wf_ind. intros cs En Hfull.
  destruct cs as [|c0 [|c1 [|c2 [|c3 rest]]]]; try discriminate.
  - exists 0%nat. assumption.
  - cbn [all_full] in Hfull. apply andb_prop in Hfull as [_ Hrest].
    cbn [length] in En.
    destruct (IH (length rest) ltac:(lia) rest eq_refl Hrest) as [k Hk].
    exists (S k). lia.
Qed.

Lemma decode_loop_exit fuel characters effLen st :
  effLen <= srcIndex st -> decode_loop fuel characters effLen st = st.
Proof.
  intros Hle. destruct fuel as [|fuel]; [reflexivity|]. cbn [decode_loop].
  destruct (Z.ltb_spec (srcIndex st) effLen); [lia | reflexivity].
Qed.

Lemma decode_loop_full k :
  forall fuel cpre pre csuf effLen dI bd dst,
    length pre = (4 * k)%nat -> all_full pre = true ->
    Z.of_nat (length cpre) + 4 * Z.of_nat k <= effLen ->
    exists dst',
      decode_loop (k + fuel) (cpre ++ pre ++ csuf) effLen
                  (mkDecodeState (Z.of_nat (length cpre)) dI bd dst)
      = decode_loop fuel (cpre ++ pre ++ csuf) effLen
                    (mkDecodeState (Z.of_nat (length cpre) + 4 * Z.of_nat k)
                                   (dI + 3 * Z.of_nat k)
                                   (match k with O => bd | S _ => 3 end) dst')
      /\ forall dpre junk dsuf,
          dst = dpre ++ junk ++ dsuf -> dI = Z.of_nat (length dpre) ->
          length junk = (3 * k)%nat ->
          dst' = dpre ++ decoded_bytes pre ++ dsuf.
Proof.
  induction k as [|k IH]; intros fuel cpre pre csuf effLen dI bd dst Hlen Hfull Hfit.
  - destruct pre; [|discriminate]. exists dst. split.
    + cbn [Nat.add]. repeat f_equal; lia.
    + intros dpre junk dsuf -> _ Hj. destruct junk; [reflexivity | discriminate].
  - destruct pre as [|c0 [|c1 [|c2 [|c3 pre]]]]; cbn [length] in Hlen; try lia.
    cbn [all_full] in Hfull. apply andb_prop in Hfull as [Hy Hfull].
    apply Z.eqb_eq in Hy.
    cbn [Nat.add decode_loop srcIndex destIndex dest].
    destruct (Z.ltb_spec (Z.of_nat (length cpre)) effLen); [|lia].
    cbn [app].
    pose proof (decodeWord_yield cpre c0 c1 c2 c3 (pre ++ csuf) dst dI) as Hn.
    destruct (decodeWord (cpre ++ c0 :: c1 :: c2 :: c3 :: pre ++ csuf)
                (Z.of_nat (length cpre)) dst dI) as [n d] eqn:Hword.
    cbn [fst] in Hn. rewrite Hy in Hn. subst n. cbn [Z.ltb Z.compare Pos.compare Pos.compare_cont].
    destruct (IH fuel (cpre ++ [c0; c1; c2; c3]) pre csuf effLen (dI + 3) 3 d)
      as (dst' & Hrun & Hcontent); try assumption; try lia.
    { rewrite length_app. cbn [length]. lia. }
    rewrite length_app in Hrun. cbn [length] in Hrun.
    rewrite <- !app_assoc in Hrun. cbn [app] in Hrun.
    exists dst'. split.
    + replace (Z.of_nat (length cpre) + 4) with (Z.of_nat (length cpre + 4)) by lia.
      rewrite Hrun. f_equal. f_equal; try lia. destruct k; reflexivity.
    + intros dpre junk dsuf Hdst HdI Hj.
      destruct junk as [|j0 [|j1 [|j2 junk]]]; cbn [length] in Hj; try lia.
      subst dst dI. cbn [app] in Hword.
      rewrite decodeWord_frame in Hword. injection Hword as _ Hd.
      rewrite word_cells_bytes, Hy in Hd by lia.
      cbn [Z.to_nat Pos.to_nat Pos.iter_op Nat.add skipn] in Hd.
      rewrite app_nil_r in Hd.
      cbn [decoded_bytes]. rewrite <- app_assoc.
      rewrite (Hcontent (dpre ++ word_bytes c0 c1 c2 c3) junk dsuf).
      * now rewrite <- app_assoc.
      * now rewrite <- Hd, <- !app_assoc.
      * rewrite length_app, word_bytes_length, Hy. lia.
      * lia.
Qed.

(** ** The decoder *)

Lemma strip_length_le string : (length (strip string) <= length string)%nat.
Proof. apply filter_length_le. Qed.

(** The state in which the loop of the decoder stops when the compacted text
    starts with [k] full groups followed by a group that yields fewer than
    three bytes. *)
Lemma decode_loop_short_group k :
  forall fuel pre c0 c1 c2 c3 csuf effLen dst,
    length pre = (4 * k)%nat -> all_full pre = true ->
    word_yield c0 c1 c2 c3 < 3 ->
    4 * Z.of_nat k + 4 <= effLen ->
    exists dst',
      decode_loop (k + S fuel) (pre ++ c0 :: c1 :: c2 :: c3 :: csuf) effLen
                  (mkDecodeState 0 0 0 dst)
      = mkDecodeState (4 * Z.of_nat k) (3 * Z.of_nat k) (word_yield c0 c1 c2 c3) dst'
      /\ forall junk d0 d1 d2 dsuf,
          dst = junk ++ d0 :: d1 :: d2 :: dsuf -> length junk = (3 * k)%nat ->
          dst' = decoded_bytes pre ++ word_cells c0 c1 c2 c3 d0 d1 d2 ++ dsuf.
Proof.
  intros fuel pre c0 c1 c2 c3 csuf effLen dst Hlen Hfull Hshort Hfit.
  destruct (decode_loop_full k (S fuel) [] pre (c0 :: c1 :: c2 :: c3 :: csuf)
              effLen 0 0 dst Hlen Hfull) as (dst1 & Hrun & Hcontent).
  { cbn [length]. lia. }
  cbn [app length Z.of_nat Z.add] in Hrun. rewrite Hrun. clear Hrun.
  cbn [decode_loop srcIndex destIndex dest].
  destruct (Z.ltb_spec (4 * Z.of_nat k) effLen); [|lia].
  replace (4 * Z.of_nat k) with (Z.of_nat (length pre)) by lia.
  pose proof (decodeWord_yield pre c0 c1 c2 c3 csuf dst1 (3 * Z.of_nat k)) as Hn.
  destruct (decodeWord (pre ++ c0 :: c1 :: c2 :: c3 :: csuf)
              (Z.of_nat (length pre)) dst1 (3 * Z.of_nat k)) as [n d] eqn:Hword.
  cbn [fst] in Hn. subst n.
  destruct (Z.ltb_spec (word_yield c0 c1 c2 c3) 3); [|lia].
  exists d. split; [reflexivity|].
  intros junk d0 d1 d2 dsuf Hdst Hj.
  specialize (Hcontent [] junk (d0 :: d1 :: d2 :: dsuf) Hdst eq_refl Hj).
  cbn [app] in Hcontent. subst dst1.
  replace (3 * Z.of_nat k) with (Z.of_nat (length (decoded_bytes pre))) in Hword.
  - rewrite decodeWord_frame in Hword. now injection Hword as <-.
  - clear - Hlen Hfull. revert pre Hlen Hfull.
    induction k as [|k IH]; intros pre Hlen Hfull.
    + destruct pre; [reflexivity | discriminate].
    + destruct pre as [|c0 [|c1 [|c2 [|c3 pre]]]]; cbn [length] in Hlen; try lia.
      cbn [all_full] in Hfull. apply andb_prop in Hfull as [Hy Hfull].
      apply Z.eqb_eq in Hy.
      cbn [decoded_bytes]. rewrite length_app, word_bytes_length, Hy.
      specialize (IH pre ltac:(lia) Hfull). lia.
Qed.

Lemma decoded_bytes_full_length cs :
  all_full cs = true -> (4 * length (decoded_bytes cs) = 3 * length cs)%nat.
Proof.
  intros Hfull. destruct (all_full_length cs Hfull) as [k Hk].
  revert cs Hk Hfull. induction k as [|k IH]; intros cs Hk Hfull.
  - destruct cs; [reflexivity | discriminate].
  - destruct cs as [|c0 [|c1 [|c2 [|c3 cs]]]]; cbn [length] in Hk; try lia.
    cbn [all_full] in Hfull. apply andb_prop in Hfull as [Hy Hfull].
    apply Z.eqb_eq in Hy.
    cbn [decoded_bytes length]. rewrite length_app, word_bytes_length, Hy.
    specialize (IH cs ltac:(lia) Hfull). lia.
Qed.

Lemma realloc_exact {A} (fresh : nat -> A) (out keep : list A) n :
  n = Z.of_nat (length out) -> realloc fresh (out ++ keep) n = out.
Proof.
  intros ->. unfold realloc. rewrite Nat2Z.id.
  rewrite firstn_app, firstn_all, Nat.sub_diag, firstn_O, app_nil_r.
  rewrite length_app.
  replace (length out - (length out + length keep))%nat with 0%nat by lia.
  apply app_nil_r.
Qed.

Lemma decode_padded_group fresh_chars fresh_bytes string pre c0 c1 c2 c3 rest :
  strip string = pre ++ [c0; c1; c2; c3] ++ rest ->
  all_full pre = true ->
  0 < word_yield c0 c1 c2 c3 < 3 ->
  (length rest mod 4 = 0)%nat ->
  3 * Z.of_nat (length (strip string)) <= UINT_MAX ->
  ITBase64DecodedDataCreate fresh_chars fresh_bytes string
  = (Some (decoded_bytes pre ++ word_bytes c0 c1 c2 c3),
     3 * (Z.of_nat (length pre) / 4) + word_yield c0 c1 c2 c3).
Proof.
  intros Hstrip Hfull Hyield Hrest Hfit.
  unfold ITBase64DecodedDataCreate. rewrite whiteSpaceFreeStringCreate_strip.
  destruct (all_full_length pre Hfull) as [k Hk].
  pose proof (strip_length_le string) as Hle.
  apply Nat.Div0.div_exact in Hrest. set (m := (length rest / 4)%nat) in *.
  rewrite Hstrip in *. rewrite !length_app in *. cbn [length] in *.
  rewrite <- !app_assoc. cbn [app].
  assert (Heff : Z.of_nat (length pre + (4 + length rest)) = 4 * Z.of_nat (k + 1 + m)) by lia.
  rewrite Heff in *.
  replace (4 * Z.of_nat (k + 1 + m) mod 4) with 0 by (Z.div_mod_to_equations; lia).
  cbn [Z.eqb negb].
  rewrite uint_small by lia.
  replace (3 * (4 * Z.of_nat (k + 1 + m)) / 4)
    with (Z.of_nat (3 * k + (3 + 3 * m))) by (Z.div_mod_to_equations; lia).
  rewrite malloc_split. cbn [Nat.add seq map].
  set (fuel := (length string - k - 1)%nat).
  replace (length string) with (k + S fuel)%nat by (unfold fuel; lia).
  match goal with
  | |- context [decode_loop _ (pre ++ c0 :: c1 :: c2 :: c3 :: ?cs) ?e
                            (mkDecodeState 0 0 0 ?d)] =>
      destruct (decode_loop_short_group k fuel pre c0 c1 c2 c3 cs e d Hk Hfull)
        as (dst' & -> & Hcontent); try lia
  end.
  specialize (Hcontent _ _ _ _ _ eq_refl (fresh_cells_length _ _ _)).
  rewrite word_cells_bytes in Hcontent by lia.
  cbn [bytesDecoded destIndex dest].
  destruct (Z.ltb_spec 0 (word_yield c0 c1 c2 c3)); [|lia].
  destruct (Z.ltb_spec (word_yield c0 c1 c2 c3) 3); [|lia].
  cbn [andb].
  pose proof (decoded_bytes_full_length pre Hfull) as Hbytes.
  rewrite uint_small by lia.
  subst dst'. rewrite !app_assoc, <- (app_assoc _ _ (map _ _)).
  rewrite realloc_exact.
  - f_equal. rewrite Hk. Z.div_mod_to_equations. lia.
  - rewrite length_app, word_bytes_length. lia.
Qed.

(** ** The decoder only sees the compacted text *)

Lemma decodeWord_ext chars1 chars2 coff dst doff :
  (forall j, 0 <= j < 4 -> load "000" chars1 (coff + j) = load "000" chars2 (coff + j)) ->
  decodeWord chars1 coff dst doff = decodeWord chars2 coff dst doff.
Proof.
  intros Hsame. unfold decodeWord.
  rewrite (Hsame 0), (Hsame 1), (Hsame 2), (Hsame 3) by lia. reflexivity.
Qed.

Lemma decode_loop_ext chars1 chars2 effLen :
  (forall i, 0 <= i < effLen -> load "000" chars1 i = load "000" chars2 i) ->
  effLen mod 4 = 0 ->
  forall fuel1 fuel2 st,
    0 <= srcIndex st -> srcIndex st mod 4 = 0 ->
    effLen - srcIndex st <= 4 * Z.of_nat fuel1 ->
    effLen - srcIndex st <= 4 * Z.of_nat fuel2 ->
    decode_loop fuel1 chars1 effLen st = decode_loop fuel2 chars2 effLen st.
Proof.
  intros Hsame Heff. induction fuel1 as [|fuel1 IH]; intros fuel2 st Hpos Hsrc H1 H2.
  - rewrite !decode_loop_exit by lia. reflexivity.
  - destruct fuel2 as [|fuel2]; [rewrite !decode_loop_exit by lia; reflexivity|].
    cbn [decode_loop]. destruct (Z.ltb_spec (srcIndex st) effLen); [|reflexivity].
    rewrite (decodeWord_ext chars1 chars2).
    + destruct (decodeWord chars2 (srcIndex st) (dest st) (destIndex st)) as [n d].
      destruct (n <? 3); [reflexivity|].
      apply IH; cbn [srcIndex]; try lia.
      Z.div_mod_to_equations. lia.
    + intros j Hj. apply Hsame. Z.div_mod_to_equations. lia.
Qed.

Lemma load_strip_buffer (s : list ascii) n m i :
  0 <= i < Z.of_nat (length s) ->
  load "000" (s ++ n) i = load "000" (s ++ m) i.
Proof. intros Hi. now rewrite !load_app_l. Qed.

Lemma decode_depends_on_strip fresh_chars fresh_chars' fresh_bytes a b :
  strip a = strip b ->
  ITBase64DecodedDataCreate fresh_chars fresh_bytes a
  = ITBase64DecodedDataCreate fresh_chars' fresh_bytes b.
Proof.
  intros Hstrip. unfold ITBase64DecodedDataCreate.
  rewrite !whiteSpaceFreeStringCreate_strip, Hstrip.
  destruct (Z.eqb_spec (Z.of_nat (length (strip b)) mod 4) 0) as [Hmod|]; [|reflexivity].
  cbn [negb].
  pose proof (strip_length_le a) as Ha. pose proof (strip_length_le b) as Hb.
  rewrite Hstrip in Ha.
  rewrite (decode_loop_ext
             (strip b ++ map fresh_chars
                             (seq (length (strip b)) (length a - length (strip b))))
             (strip b ++ map fresh_chars'
                             (seq (length (strip b)) (length b - length (strip b))))
             _ (load_strip_buffer _ _ _) Hmod (length a) (length b));
    cbn [srcIndex]; try reflexivity; lia.
Qed.

Lemma ws_inserted_strip t t' : ws_inserted t t' -> strip t' = strip t.
Proof.
  induction 1 as [|c t t' _ IH|w t t' Hw _ IH]; cbn [strip filter].
  - reflexivity.
  - fold (strip t) (strip t'). now rewrite IH.
  - rewrite Hw. cbn [negb]. exact IH.
Qed.

(** ** The inverse alphabet *)

Lemma charToByte_alphabet_value c :
  match alphabet_value c with
  | Some v => charToByte c = v /\ is_sextet v = true
  | None => charToByte c = 0xff
  end.
Proof.
  destruct c as [[] [] [] [] [] [] [] []]; vm_compute; auto.
Qed.

Lemma high_bits_of_sextet v : is_sextet v = true -> Z.shiftr (Z.land v 0x30) 4 = Z.shiftr v 4.
Proof.
  intros Hv. apply Z.eqb_eq.
  apply (forallb_range (fun v => Z.shiftr (Z.land v 0x30) 4 =? Z.shiftr v 4) 64);
    [vm_compute; reflexivity | unfold is_sextet in Hv; lia].
Qed.

Lemma mid_bits_of_sextet v : is_sextet v = true -> Z.shiftr (Z.land v 0x3c) 2 = Z.shiftr v 2.
Proof.
  intros Hv. apply Z.eqb_eq.
  apply (forallb_range (fun v => Z.shiftr (Z.land v 0x3c) 2 =? Z.shiftr v 2) 64);
    [vm_compute; reflexivity | unfold is_sextet in Hv; lia].
Qed.

Lemma sextet_not_ff v : is_sextet v = true -> (v =? 0xff) = false.
Proof. unfold is_sextet. lia. Qed.

(** ** Stores keep the size of a block *)







(** ** Decoding a text of full groups *)

Lemma decode_all_full fresh_chars fresh_bytes string :
  all_full (strip string) = true ->
  strip string <> [] ->
  3 * Z.of_nat (length (strip string)) <= UINT_MAX ->
  ITBase64DecodedDataCreate fresh_chars fresh_bytes string
  = (Some (decoded_bytes (strip string)), 3 * (Z.of_nat (length (strip string)) / 4)).
Proof.
  intros Hfull Hne Hfit.
  unfold ITBase64DecodedDataCreate. rewrite whiteSpaceFreeStringCreate_strip.
  destruct (all_full_length _ Hfull) as [k Hk].
  pose proof (strip_length_le string) as Hle.
  assert (Hk1 : (1 <= k)%nat).
  { destruct k; [|lia]. destruct (strip string); [congruence | discriminate]. }
  rewrite Hk in *.
  replace (Z.of_nat (4 * k) mod 4) with 0 by (Z.div_mod_to_equations; lia).
  cbn [Z.eqb negb].
  rewrite uint_small by lia.
  replace (3 * Z.of_nat (4 * k) / 4) with (Z.of_nat (3 * k + 0))
    by (Z.div_mod_to_equations; lia).
  rewrite malloc_split. cbn [seq map].
  set (fuel := (length string - k)%nat).
  replace (length string) with (k + fuel)%nat by (unfold fuel; lia).
  set (junk := map fresh_chars (seq (4 * k) (k + fuel - 4 * k))).
  destruct (decode_loop_full k fuel [] (strip string) junk (Z.of_nat (4 * k)) 0 0
              (map fresh_bytes (seq 0 (3 * k)) ++ []) Hk Hfull)
    as (dst' & Hrun & Hcontent).
  { cbn [length]. lia. }
  cbn [app length Z.of_nat Z.add] in Hrun. rewrite Hrun. clear Hrun.
  rewrite decode_loop_exit by (cbn [srcIndex]; lia).
  cbn [bytesDecoded destIndex dest].
  destruct k as [|k']; [lia|]. cbn [Z.ltb Z.eqb Z.compare Pos.compare Pos.compare_cont andb].
  rewrite (Hcontent [] (map fresh_bytes (seq 0 (3 * S k'))) []);
    [| reflexivity | reflexivity | apply fresh_cells_length].
  cbn [app]. rewrite app_nil_r. f_equal. Z.div_mod_to_equations. lia.
Qed.

(** ** One word there and back *)

Lemma to_uint8_byte_val b : to_uint8 (byte_val b) = b.
Proof.
  unfold to_uint8, byte_val.
  rewrite Z.mod_small by (pose proof (byte_val_range b); unfold byte_val in *; lia).
  now rewrite N2Z.id, Byte.of_to_N.
Qed.

Lemma charToByte_table_at s : is_sextet s = true -> charToByte (table_at s) = s.
Proof.
  intros Hs. apply Z.eqb_eq.
  apply (forallb_range (fun s => charToByte (table_at s) =? s) 64);
    [vm_compute; reflexivity | unfold is_sextet in Hs; lia].
Qed.

Lemma table_at_not_padding s : is_sextet s = true -> Ascii.eqb (table_at s) "=" = false.
Proof.
  intros Hs. apply negb_true_iff.
  apply (forallb_range (fun s => negb (Ascii.eqb (table_at s) "=")) 64);
    [vm_compute; reflexivity | unfold is_sextet in Hs; lia].
Qed.

Lemma table_at_A s : is_sextet s = true -> Ascii.eqb (table_at s) "A" = (s =? 0).
Proof.
  intros Hs. apply Bool.eqb_prop.
  apply (forallb_range (fun s => Bool.eqb (Ascii.eqb (table_at s) "A") (s =? 0)) 64);
    [vm_compute; reflexivity | unfold is_sextet in Hs; lia].
Qed.

Lemma table_at_not_space s : is_sextet s = true -> isWhiteSpace (table_at s) = false.
Proof.
  intros Hs. apply negb_true_iff.
  apply (forallb_range (fun s => negb (isWhiteSpace (table_at s))) 64);
    [vm_compute; reflexivity | unfold is_sextet in Hs; lia].
Qed.

(** The bit arithmetic of [decodeWord] undoes that of [encodeWord]. *)
Lemma unpack_byte0 x y :
  0 <= x < 256 -> 0 <= y < 256 ->
  Z.lor (Z.shiftl (Z.shiftr (Z.land x 0xFC) 2) 2)
        (Z.shiftr (Z.land (Z.lor (Z.shiftl (Z.land x 0x03) 4)
                                 (Z.shiftr (Z.land y 0xF0) 4)) 0x30) 4) = x.
Proof.
  intros Hx Hy. apply Z.eqb_eq.
  apply (forallb_range2
           (fun x y =>
              Z.lor (Z.shiftl (Z.shiftr (Z.land x 0xFC) 2) 2)
                    (Z.shiftr (Z.land (Z.lor (Z.shiftl (Z.land x 0x03) 4)
                                             (Z.shiftr (Z.land y 0xF0) 4)) 0x30) 4) =? x)
           256 256); [vm_compute; reflexivity | assumption | assumption].
Qed.

Lemma unpack_byte1_high x y :
  0 <= x < 256 -> 0 <= y < 256 ->
  Z.shiftl (Z.land (Z.lor (Z.shiftl (Z.land x 0x03) 4)
                          (Z.shiftr (Z.land y 0xF0) 4)) 0x0f) 4 = Z.land y 0xF0.
Proof.
  intros Hx Hy. apply Z.eqb_eq.
  apply (forallb_range2
           (fun x y =>
              Z.shiftl (Z.land (Z.lor (Z.shiftl (Z.land x 0x03) 4)
                                      (Z.shiftr (Z.land y 0xF0) 4)) 0x0f) 4
              =? Z.land y 0xF0)
           256 256); [vm_compute; reflexivity | assumption | assumption].
Qed.

Lemma unpack_byte1_low y z :
  0 <= y < 256 -> 0 <= z < 256 ->
  Z.shiftr (Z.land (Z.lor (Z.shiftl (Z.land y 0x0F) 2)
                          (Z.shiftr (Z.land z 0xC0) 6)) 0x3c) 2 = Z.land y 0x0F.
Proof.
  intros Hy Hz. apply Z.eqb_eq.
  apply (forallb_range2
           (fun y z =>
              Z.shiftr (Z.land (Z.lor (Z.shiftl (Z.land y 0x0F) 2)
                                      (Z.shiftr (Z.land z 0xC0) 6)) 0x3c) 2
              =? Z.land y 0x0F)
           256 256); [vm_compute; reflexivity | assumption | assumption].
Qed.

Lemma unpack_byte2 y z :
  0 <= y < 256 -> 0 <= z < 256 ->
  Z.lor (Z.shiftl (Z.land (Z.lor (Z.shiftl (Z.land y 0x0F) 2)
                                 (Z.shiftr (Z.land z 0xC0) 6)) 0x03) 6)
        (Z.land z 0x3F) = z.
Proof.
  intros Hy Hz. apply Z.eqb_eq.
  apply (forallb_range2
           (fun y z =>
              Z.lor (Z.shiftl (Z.land (Z.lor (Z.shiftl (Z.land y 0x0F) 2)
                                             (Z.shiftr (Z.land z 0xC0) 6)) 0x03) 6)
                    (Z.land z 0x3F) =? z)
           256 256); [vm_compute; reflexivity | assumption | assumption].
Qed.

Lemma nibbles_of_byte y : 0 <= y < 256 -> Z.lor (Z.land y 0xF0) (Z.land y 0x0F) = y.
Proof.
  intros Hy. apply Z.eqb_eq.
  apply (forallb_range (fun y => Z.lor (Z.land y 0xF0) (Z.land y 0x0F) =? y) 256);
    [vm_compute; reflexivity | assumption].
Qed.

Section Symbols.
Variables s0 s1 s2 s3 : Z.
Hypothesis S0 : is_sextet s0 = true.
Hypothesis S1 : is_sextet s1 = true.
Variables d0 d1 d2 : byte.

Lemma decodeWord_one_symbol_pair c3 :
  decodeWord [table_at s0; table_at s1; "="; c3] 0 [d0; d1; d2] 0 = (1, [to_uint8 (Z.lor (Z.shiftl s0 2) (Z.shiftr (Z.land s1 0x30) 4)); d1; d2]).
Proof.
  unfold decodeWord. cbn [Z.add]. autorewrite with block.
  rewrite !charToByte_table_at, !sextet_not_ff by assumption.
  reflexivity.
Qed.

Hypothesis S2 : is_sextet s2 = true.

Lemma decodeWord_three_symbols :
  decodeWord [table_at s0; table_at s1; table_at s2; "="] 0 [d0; d1; d2] 0
  = (2, [to_uint8 (Z.lor (Z.shiftl s0 2) (Z.shiftr (Z.land s1 0x30) 4));
         to_uint8 (Z.lor (Z.shiftl (Z.land s1 0x0f) 4) (Z.shiftr (Z.land s2 0x3c) 2)); d2]).
Proof.
  unfold decodeWord. cbn [Z.add]. autorewrite with block.
  rewrite !charToByte_table_at, !sextet_not_ff, table_at_not_padding by assumption.
  reflexivity.
Qed.

Hypothesis S3 : is_sextet s3 = true.

Lemma decodeWord_four_symbols :
  decodeWord [table_at s0; table_at s1; table_at s2; table_at s3] 0 [d0; d1; d2] 0
  = (3, [to_uint8 (Z.lor (Z.shiftl s0 2) (Z.shiftr (Z.land s1 0x30) 4));
         to_uint8 (Z.lor (Z.shiftl (Z.land s1 0x0f) 4) (Z.shiftr (Z.land s2 0x3c) 2));
         to_uint8 (Z.lor (Z.shiftl (Z.land s2 0x03) 6) s3)]).
Proof.
  unfold decodeWord. cbn [Z.add]. autorewrite with block.
  rewrite !charToByte_table_at, !sextet_not_ff, !table_at_not_padding by assumption.
  reflexivity.
Qed.
End Symbols.

Lemma full_word_round_trip b0 b1 b2 :
  exists t0 t1 t2 t3,
    encoded_word b0 b1 b2 0 = [t0; t1; t2; t3]
    /\ word_yield t0 t1 t2 t3 = 3
    /\ word_bytes t0 t1 t2 t3 = [b0; b1; b2]
    /\ strip [t0; t1; t2; t3] = [t0; t1; t2; t3].
Proof.
  pose proof (sextets_range b0 b1 b2) as Hs.
  unfold encoded_word, pad_word, sextets in *. destruct Hs as (S0 & S1 & S2 & S3).
  change (negb (0 =? 0)) with false. rewrite !andb_false_r.
  do 4 eexists. split; [reflexivity|].
  unfold word_bytes, word_yield, word_cells.
  rewrite !decodeWord_four_symbols by assumption.
  cbn [fst snd]. split; [reflexivity|]. split.
  - change (firstn (Z.to_nat 3) ?l) with l.
    pose proof (byte_val_range b0). pose proof (byte_val_range b1).
    pose proof (byte_val_range b2).
    rewrite unpack_byte0, unpack_byte1_high, unpack_byte1_low, nibbles_of_byte,
      unpack_byte2, !to_uint8_byte_val by assumption.
    reflexivity.
  - cbn [strip filter]. rewrite !table_at_not_space by assumption. reflexivity.
Qed.

Lemma third_sextet_of_two_bytes y :
  0 <= y < 256 ->
  (Z.lor (Z.shiftl (Z.land y 0x0F) 2) (Z.shiftr (Z.land (byte_val x00) 0xC0) 6) =? 0)
  = (Z.land y 0x0F =? 0).
Proof.
  intros Hy. apply Bool.eqb_prop.
  apply (forallb_range
           (fun y => Bool.eqb
                       (Z.lor (Z.shiftl (Z.land y 0x0F) 2)
                              (Z.shiftr (Z.land (byte_val x00) 0xC0) 6) =? 0)
                       (Z.land y 0x0F =? 0)) 256);
    [vm_compute; reflexivity | assumption].
Qed.

Lemma one_byte_rest_round_trip b0 :
  exists t0 t1,
    encoded_word b0 x00 x00 1 = [t0; t1; "="; "="]
    /\ word_yield t0 t1 "=" "=" = 1
    /\ word_bytes t0 t1 "=" "=" = [b0]
    /\ strip [t0; t1; "="; "="] = [t0; t1; "="; "="].
Proof.
  pose proof (sextets_range b0 x00 x00) as Hs.
  unfold encoded_word, pad_word, sextets in *. destruct Hs as (S0 & S1 & S2 & S3).
  rewrite table_at_A by assumption.
  change (Z.lor (Z.shiftl (Z.land (byte_val x00) 15) 2)
                (Z.shiftr (Z.land (byte_val x00) 192) 6) =? 0) with true.
  cbn [andb negb Z.eqb].
  do 2 eexists. split; [reflexivity|].
  unfold word_bytes, word_yield, word_cells.
  rewrite !decodeWord_one_symbol_pair by assumption.
  cbn [fst snd]. split; [reflexivity|]. split.
  - change (firstn (Z.to_nat 1) (?x :: ?l)) with [x].
    pose proof (byte_val_range b0). pose proof (byte_val_range x00).
    rewrite unpack_byte0, to_uint8_byte_val by assumption. reflexivity.
  - cbn [strip filter]. rewrite !table_at_not_space by assumption. reflexivity.
Qed.

Lemma two_byte_rest_round_trip b0 b1 :
  Z.land (byte_val b1) 0x0F <> 0 ->
  exists t0 t1 t2,
    encoded_word b0 b1 x00 1 = [t0; t1; t2; "="]
    /\ word_yield t0 t1 t2 "=" = 2
    /\ word_bytes t0 t1 t2 "=" = [b0; b1]
    /\ strip [t0; t1; t2; "="] = [t0; t1; t2; "="].
Proof.
  intros Hlow.
  pose proof (sextets_range b0 b1 x00) as Hs.
  pose proof (byte_val_range b0). pose proof (byte_val_range b1).
  pose proof (byte_val_range x00).
  unfold encoded_word, pad_word, sextets in *. destruct Hs as (S0 & S1 & S2 & S3).
  rewrite !table_at_A, third_sextet_of_two_bytes by assumption.
  destruct (Z.eqb_spec (Z.land (byte_val b1) 15) 0); [contradiction|].
  change (Z.land (byte_val x00) 63 =? 0) with true.
  cbn [andb negb Z.eqb].
  do 3 eexists. split; [reflexivity|].
  unfold word_bytes, word_yield, word_cells.
  rewrite !decodeWord_three_symbols by assumption.
  cbn [fst snd]. split; [reflexivity|]. split.
  - change (firstn (Z.to_nat 2) (?x :: ?y :: ?l)) with [x; y].
    rewrite unpack_byte0, unpack_byte1_high, unpack_byte1_low, nibbles_of_byte,
      !to_uint8_byte_val by assumption.
    reflexivity.
  - cbn [strip filter]. rewrite !table_at_not_space by assumption. reflexivity.
Qed.

(** X12.  With the flag set, a final word of two real bytes and a zero fill
    byte keeps its first three table symbols and gets a single ['='] whenever
    the low four bits of the second byte are not all zero. *)
Lemma two_byte_final_word_padding fresh b0 b1 :
  Z.land (byte_val b1) 0x0F <> 0 ->
  encodeWord [b0; b1; x00] 0 (malloc fresh 4) 0 1
  = (let '(s0, s1, s2, _) := sextets b0 b1 x00 in
     [table_at s0; table_at s1; table_at s2; "="]).
Proof.
  intros Hlow.
  pose proof (encodeWord_rest b0 b1 x00 [] (fresh 0%nat) (fresh 1%nat) (fresh 2%nat)
                               (fresh 3%nat) [] 1) as Hword.
  cbn [app length Z.of_nat] in Hword. rewrite app_nil_r in Hword.
  change (malloc fresh 4) with [fresh 0%nat; fresh 1%nat; fresh 2%nat; fresh 3%nat].
  rewrite Hword.
  pose proof (sextets_range b0 b1 x00) as Hs.
  pose proof (byte_val_range b1).
  unfold encoded_word, pad_word, sextets in *. destruct Hs as (S0 & S1 & S2 & S3).
  rewrite !table_at_A, third_sextet_of_two_bytes by assumption.
  destruct (Z.eqb_spec (Z.land (byte_val b1) 15) 0); [contradiction|].
  reflexivity.
Qed.

Lemma two_byte_rest_overpadded b0 b1 :
  Z.land (byte_val b1) 0x0F = 0 ->
  exists t0 t1,
    encoded_word b0 b1 x00 1 = [t0; t1; "="; "="]
    /\ word_yield t0 t1 "=" "=" = 1
    /\ word_bytes t0 t1 "=" "=" = [b0]
    /\ strip [t0; t1; "="; "="] = [t0; t1; "="; "="].
Proof.
  intros Hlow.
  pose proof (sextets_range b0 b1 x00) as Hs.
  pose proof (byte_val_range b0). pose proof (byte_val_range b1).
  unfold encoded_word, pad_word, sextets in *. destruct Hs as (S0 & S1 & S2 & S3).
  rewrite !table_at_A, third_sextet_of_two_bytes, Hlow by assumption.
  cbn [andb negb Z.eqb].
  do 2 eexists. split; [reflexivity|].
  unfold word_bytes, word_yield, word_cells.
  rewrite !decodeWord_one_symbol_pair by assumption.
  cbn [fst snd]. split; [reflexivity|]. split.
  - change (firstn (Z.to_nat 1) (?x :: ?l)) with [x].
    rewrite unpack_byte0, to_uint8_byte_val by assumption. reflexivity.
  - cbn [strip filter]. rewrite !table_at_not_space by assumption. reflexivity.
Qed.

(** ** The encoded text there and back *)

Lemma encoded_words_decode k :
  forall full,
    length full = (3 * k)%nat ->
    all_full (encoded_words full) = true
    /\ decoded_bytes (encoded_words full) = full
    /\ strip (encoded_words full) = encoded_words full.
Proof.
  induction k as [|k IH]; intros full Hlen.
  - destruct full; [repeat split | discriminate].
  - destruct full as [|b0 [|b1 [|b2 full]]]; cbn [length] in Hlen; try lia.
    destruct (IH full ltac:(lia)) as (Hfull & Hbytes & Hstrip).
    destruct (full_word_round_trip b0 b1 b2) as (t0 & t1 & t2 & t3 & Hw & Hy & Hb & Hs).
    cbn [encoded_words]. rewrite Hw. cbn [app all_full decoded_bytes].
    rewrite Hy, Hb, Hfull, Hbytes. repeat split.
    unfold strip in *. change (?a :: ?b :: ?c :: ?d :: ?l) with ([a; b; c; d] ++ l).
    now rewrite filter_app, Hs, Hstrip.
Qed.

Lemma encoded_text_split data :
  exists k full rest,
    data = full ++ rest /\ length full = (3 * k)%nat /\ (length rest < 3)%nat /\
    encoded_text data = encoded_words full ++ encoded_rest rest /\
    (length data mod 3)%nat = length rest.
Proof.
  unfold encoded_text.
  destruct (split_words data) as (k & full & rest & Hdata & Hf & Hr & -> & -> & Hmod).
  exists k, full, rest. auto.
Qed.

Lemma encoded_string_text fresh data :
  encoded_size (Z.of_nat (length data)) <= UINT_MAX ->
  encoded_string fresh data = encoded_text data.
Proof.
  intros Hfit. unfold encoded_string. rewrite encode_correct by assumption.
  rewrite <- encoded_text_length, Nat2Z.id.
  rewrite firstn_app, firstn_all, Nat.sub_diag, firstn_O. apply app_nil_r.
Qed.

Lemma encoded_size_nonneg L : 0 <= L -> 0 <= encoded_size L.
Proof. intros HL. unfold encoded_size. Z.div_mod_to_equations. lia. Qed.

(** X1.  Round trip.  For every non-empty buffer, except those with two bytes
    left over whose last byte has its low four bits zero, decoding the text
    returned by the encoder gives the buffer back with its length (three
    times the encoded size within [unsigned int]). *)
Lemma round_trip_well_padded fresh fresh_chars fresh_bytes data :
  data <> [] ->
  ((length data mod 3 = 2)%nat -> Z.land (byte_val (last data x00)) 0x0F <> 0) ->
  3 * encoded_size (Z.of_nat (length data)) <= UINT_MAX ->
  ITBase64DecodedDataCreate fresh_chars fresh_bytes (encoded_string fresh data)
  = (Some data, Z.of_nat (length data)).
Proof.
  intros Hne Hlow Hfit.
  pose proof (encoded_size_nonneg (Z.of_nat (length data)) ltac:(lia)) as Hpos.
  rewrite encoded_string_text by lia.
  pose proof (encoded_text_length data) as Hsize.
  destruct (encoded_text_split data) as (k & full & rest & Hdata & Hf & Hr & Htext & Hmod).
  rewrite Htext in *. clear Htext.
  destruct (encoded_words_decode k full Hf) as (Hfull & Hbytes & Hstrip).
  pose proof (encoded_words_length k full Hf) as Hwords.
  destruct rest as [|r0 [|r1 [|r2 rest]]]; cbn [length] in Hr; try lia;
    cbn [encoded_rest] in *.
  - rewrite app_nil_r in *. subst data.
    rewrite decode_all_full; rewrite ?Hstrip; try assumption.
    + rewrite Hbytes, Hwords, Hf. f_equal. Z.div_mod_to_equations. lia.
    + destruct k; [destruct full; [congruence | discriminate]|].
      intros E. rewrite E in Hwords. discriminate.
    + lia.
  - destruct (one_byte_rest_round_trip r0) as (t0 & t1 & Hw & Hy & Hb & Hs).
    rewrite Hw in *.
    rewrite (decode_padded_group _ _ _ (encoded_words full) t0 t1 "=" "=" []).
    + rewrite Hbytes, Hb, Hy, Hwords, Hdata, length_app, Hf. cbn [length].
      f_equal. Z.div_mod_to_equations. lia.
    + unfold strip in *. now rewrite filter_app, Hs, Hstrip, app_nil_r.
    + assumption.
    + lia.
    + reflexivity.
    + unfold strip in *. rewrite filter_app, Hs, Hstrip. lia.
  - assert (Hlast : last data x00 = r1).
    { rewrite Hdata. change [r0; r1] with ([r0] ++ [r1]).
      rewrite app_assoc. apply last_last. }
    rewrite Hlast in Hlow.
    destruct (two_byte_rest_round_trip r0 r1 (Hlow Hmod)) as (t0 & t1 & t2 & Hw & Hy & Hb & Hs).
    rewrite Hw in *.
    rewrite (decode_padded_group _ _ _ (encoded_words full) t0 t1 t2 "=" []).
    + rewrite Hbytes, Hb, Hy, Hwords, Hdata, length_app, Hf. cbn [length].
      f_equal. Z.div_mod_to_equations. lia.
    + unfold strip in *. now rewrite filter_app, Hs, Hstrip, app_nil_r.
    + assumption.
    + lia.
    + reflexivity.
    + unfold strip in *. rewrite filter_app, Hs, Hstrip. lia.
Qed.


(** ** A prefix of a compacted text is compact *)

Lemma strip_prefix_fixed s a b : strip s = a ++ b -> strip a = a.
Proof.
  intros Hs. unfold strip in *. apply forallb_filter_id, forallb_forall.
  intros c Hc.
  assert (Hin : In c (filter (fun c => negb (isWhiteSpace c)) s))
    by (rewrite Hs; apply in_or_app; auto).
  apply filter_In in Hin. tauto.
Qed.

(** * The claims *)

(** C1 (round trip, violated by the code).  Decoding the text produced by the
    encoder does not always give back the buffer.  For the two bytes
    [0x4D 0x60] the encoder writes ["TW=="], which decodes to the single byte
    [0x4D] with reported length 1; for the empty buffer the encoder writes the
    empty text, which the decoder rejects. *)
Theorem round_trip_broken fresh fresh_chars fresh_bytes :
  encoded_string fresh ["M"%byte; "`"%byte] = text "TW=="
  /\ ITBase64DecodedDataCreate fresh_chars fresh_bytes
       (encoded_string fresh ["M"%byte; "`"%byte])
     = (Some ["M"%byte], 1)
  /\ encoded_string fresh [] = []
  /\ ITBase64DecodedDataCreate fresh_chars fresh_bytes (encoded_string fresh [])
     = (None, 0).
Proof. repeat split. Qed.

(** C2 as stated fails: in ["TQ==TWFu"] the first of two groups yields one
    byte, and the decoder does not return the failure signal: it returns the
    byte [0x4D] and reports length 1. *)
Lemma early_padding_accepted :
  strip (text "TQ==TWFu") = ["T"; "Q"; "="; "="] ++ text "TWFu"
  /\ word_yield "T" "Q" "=" "=" = 1
  /\ (forall fresh_chars fresh_bytes,
         ITBase64DecodedDataCreate fresh_chars fresh_bytes (text "TQ==TWFu")
         = (Some ["M"%byte], 1))
  /\ (forall fresh_chars fresh_bytes,
         fst (ITBase64DecodedDataCreate fresh_chars fresh_bytes (text "TQ==TWFu"))
         <> None).
Proof.
  split; [reflexivity|]. split; [reflexivity|]. split.
  - intros fresh_chars fresh_bytes. reflexivity.
  - intros fresh_chars fresh_bytes. discriminate.
Qed.

(** C2 (amended).  When the compacted text has a length that is a multiple of
    four (and three times that length fits an [unsigned int]) and its first
    group that yields fewer than three bytes yields one or two of them, the
    decoder does not fail, whether or not that group is the last one.  It
    stops at that group, returns the bytes of the groups up to and including
    it and reports their number; every later group is ignored, so the result
    is that of the text cut after that group. *)
Theorem early_padding_stops_decoding fresh_chars fresh_bytes string pre c0 c1 c2 c3 rest :
  strip string = pre ++ [c0; c1; c2; c3] ++ rest ->
  all_full pre = true ->
  0 < word_yield c0 c1 c2 c3 < 3 ->
  (length rest mod 4 = 0)%nat ->
  3 * Z.of_nat (length (strip string)) <= UINT_MAX ->
  ITBase64DecodedDataCreate fresh_chars fresh_bytes string
  = (Some (decoded_bytes pre ++ word_bytes c0 c1 c2 c3),
     3 * (Z.of_nat (length pre) / 4) + word_yield c0 c1 c2 c3)
  /\ ITBase64DecodedDataCreate fresh_chars fresh_bytes string
     = ITBase64DecodedDataCreate fresh_chars fresh_bytes (pre ++ [c0; c1; c2; c3]).
Proof.
  intros Hstrip Hfull Hyield Hrest Hfit.
  assert (Hcut : strip (pre ++ [c0; c1; c2; c3]) = pre ++ [c0; c1; c2; c3] ++ []).
  { rewrite app_nil_r. apply (strip_prefix_fixed string _ rest).
    now rewrite <- app_assoc. }
  rewrite (decode_padded_group _ _ string pre c0 c1 c2 c3 rest) by assumption.
  split; [reflexivity|].
  rewrite (decode_padded_group _ _ (pre ++ [c0; c1; c2; c3]) pre c0 c1 c2 c3 []);
    try assumption; try reflexivity.
  rewrite Hcut, Hstrip in *. rewrite !length_app in *. cbn [length] in *. lia.
Qed.

Lemma early_padding_stops_decoding_witness :
  (strip (text "TWFuTQ==TWFu") = text "TWFu" ++ ["T"; "Q"; "="; "="] ++ text "TWFu"
   /\ all_full (text "TWFu") = true
   /\ 0 < word_yield "T" "Q" "=" "=" < 3
   /\ (length (text "TWFu") mod 4 = 0)%nat
   /\ 3 * Z.of_nat (length (strip (text "TWFuTQ==TWFu"))) <= UINT_MAX)
  /\ forall fresh_chars fresh_bytes,
      ITBase64DecodedDataCreate fresh_chars fresh_bytes (text "TWFuTQ==TWFu")
      = (Some ["M"%byte; "a"%byte; "n"%byte; "M"%byte], 4)
      /\ ITBase64DecodedDataCreate fresh_chars fresh_bytes (text "TWFuTQ==TWFu")
         = ITBase64DecodedDataCreate fresh_chars fresh_bytes (text "TWFuTQ==").
Proof.
  assert (Hyield : 0 < word_yield "T" "Q" "=" "=" < 3)
    by (vm_compute; split; reflexivity).
  assert (Hfit : 3 * Z.of_nat (length (strip (text "TWFuTQ==TWFu"))) <= UINT_MAX)
    by (vm_compute; discriminate).
  split.
  - split; [reflexivity|]. split; [reflexivity|]. split; [exact Hyield|].
    split; [reflexivity | exact Hfit].
  - intros fresh_chars fresh_bytes.
    exact (early_padding_stops_decoding fresh_chars fresh_bytes
             (text "TWFuTQ==TWFu") (text "TWFu")
             "T" "Q" "=" "=" (text "TWFu") eq_refl eq_refl Hyield eq_refl Hfit).
Defined.

(** C3 (violated by the code).  The final word [0x4D 0x60 0x00] holds two
    real bytes and a zero fill byte.  With the final flag set the word encoder
    overwrites the third and the fourth output character with ['='], although
    the third is the table symbol ['A'] of a computed 6-bit group. *)
Theorem two_byte_final_word_overpadded fresh :
  sextets "M"%byte "`"%byte x00 = (19, 22, 0, 0)
  /\ table_at 0 = "A"
  /\ encodeWord ["M"%byte; "`"%byte; x00] 0 (malloc fresh 4) 0 1 = text "TW=="
  /\ ITBase64EncodedStringCreate fresh ["M"%byte; "`"%byte]
     = (text "TW==" ++ ["000"], 4).
Proof. repeat split. Qed.

(** C4 (violated by the code).  Decoding the empty text, or a text made of
    whitespace only, returns the failure signal [NULL] with reported length 0:
    the loop body never runs, [bytesDecoded] keeps its initial value 0 and the
    error branch is taken. *)
Theorem empty_text_rejected fresh_chars fresh_bytes :
  ITBase64DecodedDataCreate fresh_chars fresh_bytes [] = (None, 0)
  /\ ITBase64DecodedDataCreate fresh_chars fresh_bytes [" "; "009"; "013"; "010"]
     = (None, 0).
Proof. split; reflexivity. Qed.




(** C6.  When the length of the text after whitespace removal is not a
    multiple of four (hence positive), the decoder returns the failure signal
    and reports length 0. *)
Theorem bad_length_rejected fresh_chars fresh_bytes string :
  Z.of_nat (length (strip string)) mod 4 <> 0 ->
  ITBase64DecodedDataCreate fresh_chars fresh_bytes string = (None, 0).
Proof.
  intros Hmod. unfold ITBase64DecodedDataCreate.
  rewrite whiteSpaceFreeStringCreate_strip.
  destruct (Z.eqb_spec (Z.of_nat (length (strip string)) mod 4) 0); [contradiction|].
  reflexivity.
Qed.

Lemma bad_length_rejected_witness :
  Z.of_nat (length (strip (text "TWFuT"))) mod 4 <> 0
  /\ forall fresh_chars fresh_bytes,
      ITBase64DecodedDataCreate fresh_chars fresh_bytes (text "TWFuT") = (None, 0).
Proof.
  assert (Hmod : Z.of_nat (length (strip (text "TWFuT"))) mod 4 <> 0)
    by (vm_compute; discriminate).
  split; [exact Hmod|].
  intros fresh_chars fresh_bytes.
  exact (bad_length_rejected fresh_chars fresh_bytes (text "TWFuT") Hmod).
Defined.

(** C7.  When the decoder, going through the compacted text from the left,
    reaches a group for which the word decoder returns 0 (every group before
    it yielded three bytes), it returns the failure signal and reports length
    0; no block of decoded bytes is returned. *)
Theorem invalid_group_aborts fresh_chars fresh_bytes string pre c0 c1 c2 c3 rest :
  strip string = pre ++ [c0; c1; c2; c3] ++ rest ->
  all_full pre = true ->
  word_yield c0 c1 c2 c3 = 0 ->
  ITBase64DecodedDataCreate fresh_chars fresh_bytes string = (None, 0).
Proof.
  intros Hstrip Hfull Hzero.
  unfold ITBase64DecodedDataCreate. rewrite whiteSpaceFreeStringCreate_strip.
  destruct (negb (Z.of_nat (length (strip string)) mod 4 =? 0)); [reflexivity|].
  destruct (all_full_length pre Hfull) as [k Hk].
  pose proof (strip_length_le string) as Hle.
  rewrite Hstrip in *. rewrite !length_app in *. cbn [length] in *.
  rewrite <- !app_assoc. cbn [app].
  set (fuel := (length string - k - 1)%nat).
  replace (length string) with (k + S fuel)%nat by (unfold fuel; lia).
  match goal with
  | |- context [decode_loop _ (pre ++ c0 :: c1 :: c2 :: c3 :: ?cs) ?e
                            (mkDecodeState 0 0 0 ?d)] =>
      destruct (decode_loop_short_group k fuel pre c0 c1 c2 c3 cs e d Hk Hfull)
        as (dst' & -> & _); try lia
  end.
  cbn [bytesDecoded]. rewrite Hzero. reflexivity.
Qed.

Lemma invalid_group_aborts_witness :
  (strip (text "TWFu TW!u TWFu") = text "TWFu" ++ ["T"; "W"; "!"; "u"] ++ text "TWFu"
   /\ all_full (text "TWFu") = true
   /\ word_yield "T" "W" "!" "u" = 0)
  /\ forall fresh_chars fresh_bytes,
      ITBase64DecodedDataCreate fresh_chars fresh_bytes (text "TWFu TW!u TWFu")
      = (None, 0).
Proof.
  split.
  - split; [reflexivity | split; reflexivity].
  - intros fresh_chars fresh_bytes.
    exact (invalid_group_aborts fresh_chars fresh_bytes
             (text "TWFu TW!u TWFu") (text "TWFu")
             "T" "W" "!" "u" (text "TWFu") eq_refl eq_refl eq_refl).
Defined.

(** C8.  A text with whitespace characters (space, tab, carriage return,
    newline) inserted at arbitrary positions decodes to the same result as the
    text itself. *)
Theorem whitespace_ignored fresh_chars fresh_chars' fresh_bytes t t' :
  ws_inserted t t' ->
  ITBase64DecodedDataCreate fresh_chars' fresh_bytes t'
  = ITBase64DecodedDataCreate fresh_chars fresh_bytes t.
Proof.
  intros Hins. apply decode_depends_on_strip, ws_inserted_strip, Hins.
Qed.

Lemma whitespace_ignored_witness :
  ws_inserted ["T"; "W"; "F"; "u"] ["T"; "W"; "F"; "010"; "u"]
  /\ forall fresh_chars fresh_chars' fresh_bytes,
      ITBase64DecodedDataCreate fresh_chars' fresh_bytes ["T"; "W"; "F"; "010"; "u"]
      = ITBase64DecodedDataCreate fresh_chars fresh_bytes ["T"; "W"; "F"; "u"].
Proof.
  assert (Hins : ws_inserted ["T"; "W"; "F"; "u"] ["T"; "W"; "F"; "010"; "u"]).
  { do 3 apply ws_inserted_keep.
    apply ws_inserted_here; [reflexivity|].
    apply ws_inserted_keep, ws_inserted_nil. }
  split; [exact Hins|].
  intros fresh_chars fresh_chars' fresh_bytes.
  exact (whitespace_ignored fresh_chars fresh_chars' fresh_bytes _ _ Hins).
Defined.

(** C9.  On every four characters and every destination block, the word
    decoder returns the count and performs the stores of [decodeWord_spec],
    the transcription of the described behaviour. *)
Theorem word_decoder_behaviour c0 c1 c2 c3 dst :
  decodeWord [c0; c1; c2; c3] 0 dst 0 = decodeWord_spec c0 c1 c2 c3 dst.
Proof.
  unfold decodeWord, decodeWord_spec. cbn [Z.add]. autorewrite with block.
  pose proof (charToByte_alphabet_value c0) as H0.
  pose proof (charToByte_alphabet_value c1) as H1.
  pose proof (charToByte_alphabet_value c2) as H2.
  pose proof (charToByte_alphabet_value c3) as H3.
  destruct (alphabet_value c0) as [v0|]; [destruct H0 as [-> S0] | rewrite H0; reflexivity].
  rewrite (sextet_not_ff v0 S0). cbn [orb].
  destruct (alphabet_value c1) as [v1|]; [destruct H1 as [-> S1] | rewrite H1; reflexivity].
  rewrite (sextet_not_ff v1 S1), (high_bits_of_sextet v1 S1).
  destruct (Ascii.eqb c2 "="); [reflexivity|].
  destruct (alphabet_value c2) as [v2|]; [destruct H2 as [-> S2] | rewrite H2; reflexivity].
  rewrite (sextet_not_ff v2 S2), (mid_bits_of_sextet v2 S2).
  destruct (Ascii.eqb c3 "="); [reflexivity|].
  destruct (alphabet_value c3) as [v3|]; [destruct H3 as [-> S3] | rewrite H3; reflexivity].
  rewrite (sextet_not_ff v3 S3). reflexivity.
Qed.

(** C10.  [charToByte] maps ['='] to 0 and not to the invalid value [0xff],
    which it returns for every character that is neither an alphabet symbol
    nor ['='].  A group with such a character in position 0 or 1 is rejected
    with no store, whereas ['='] in position 0 or 1 is decoded as the 6-bit
    value 0: the byte stored is [(0 << 2) | (v1 >> 4)], respectively
    [(v0 << 2) | (0 >> 4)], whatever the destination held.  Therefore
    ["===="] decodes successfully to the single byte [0x00] with reported
    length 1, whatever the fresh blocks hold.  In general ['='] in position 0
    or 1 is decoded like ['A'], the symbol of value 0. *)
Theorem padding_char_accepted_as_zero :
  charToByte "=" = 0
  /\ charToByte "=" <> 0xff
  /\ (forall c, alphabet_value c = None -> charToByte c = 0xff)
  /\ (forall c c1 c2 c3 dst,
         alphabet_value c = None ->
         decodeWord [c; c1; c2; c3] 0 dst 0 = (0, dst)
         /\ decodeWord [c1; c; c2; c3] 0 dst 0 = (0, dst))
  /\ (forall c1 v1 c3 d0 d1 d2,
         alphabet_value c1 = Some v1 ->
         decodeWord ["="; c1; "="; c3] 0 [d0; d1; d2] 0
         = (1, [to_uint8 (Z.lor (Z.shiftl 0 2) (Z.shiftr v1 4)); d1; d2]))
  /\ (forall c0 v0 c3 d0 d1 d2,
         alphabet_value c0 = Some v0 ->
         decodeWord [c0; "="; "="; c3] 0 [d0; d1; d2] 0
         = (1, [to_uint8 (Z.lor (Z.shiftl v0 2) (Z.shiftr 0 4)); d1; d2]))
  /\ (forall fresh_chars fresh_bytes,
         ITBase64DecodedDataCreate fresh_chars fresh_bytes (text "====")
         = (Some [x00], 1))
  /\ alphabet_value "A" = Some 0
  /\ (forall c1 c2 c3 dst,
         decodeWord ["="; c1; c2; c3] 0 dst 0 = decodeWord ["A"; c1; c2; c3] 0 dst 0)
  /\ (forall c0 c2 c3 dst,
         decodeWord [c0; "="; c2; c3] 0 dst 0 = decodeWord [c0; "A"; c2; c3] 0 dst 0).
Proof.
  assert (Hinvalid : forall c, alphabet_value c = None -> charToByte c = 0xff).
  { intros c Hc. pose proof (charToByte_alphabet_value c) as H.
    now rewrite Hc in H. }
  split; [reflexivity|]. split; [discriminate|]. split; [exact Hinvalid|].
  split; [|split; [|split; [|split; [|split; [reflexivity | split; intros; reflexivity]]]]].
  - intros c c1 c2 c3 dst Hc. apply Hinvalid in Hc.
    unfold decodeWord. cbn [Z.add]. autorewrite with block. rewrite Hc.
    change (255 =? 255) with true. rewrite orb_true_r. split; reflexivity.
  - intros c1 v1 c3 d0 d1 d2 Hc.
    pose proof (charToByte_alphabet_value c1) as H. rewrite Hc in H.
    destruct H as [Hv S1].
    unfold decodeWord. cbn [Z.add]. autorewrite with block. rewrite Hv.
    change (charToByte "=") with 0. change (Ascii.eqb "=" "=") with true.
    rewrite (sextet_not_ff v1 S1), (high_bits_of_sextet v1 S1). reflexivity.
  - intros c0 v0 c3 d0 d1 d2 Hc.
    pose proof (charToByte_alphabet_value c0) as H. rewrite Hc in H.
    destruct H as [Hv S0].
    unfold decodeWord. cbn [Z.add]. autorewrite with block. rewrite Hv.
    change (charToByte "=") with 0. change (Ascii.eqb "=" "=") with true.
    rewrite (sextet_not_ff v0 S0). reflexivity.
  - intros fresh_chars fresh_bytes. reflexivity.
Qed.

Lemma padding_char_accepted_as_zero_witness :
  alphabet_value "!" = None
  /\ alphabet_value "/" = Some 63
  /\ charToByte "!" = 0xff
  /\ decodeWord ["!"; "/"; "="; "="] 0 ["170"%byte; "187"%byte; "204"%byte] 0
     = (0, ["170"%byte; "187"%byte; "204"%byte])
  /\ decodeWord ["="; "/"; "="; "="] 0 ["170"%byte; "187"%byte; "204"%byte] 0
     = (1, ["003"%byte; "187"%byte; "204"%byte])
  /\ decodeWord ["/"; "="; "="; "="] 0 ["170"%byte; "187"%byte; "204"%byte] 0
     = (1, ["252"%byte; "187"%byte; "204"%byte]).
Proof.
  destruct padding_char_accepted_as_zero
    as (_ & _ & Hinvalid & Hreject & Hfirst & Hsecond & _).
  split; [reflexivity|]. split; [reflexivity|].
  split; [exact (Hinvalid "!" eq_refl)|].
  split; [exact (proj1 (Hreject "!" "/" "=" "=" _ eq_refl))|].
  split.
  - exact (Hfirst "/" 63 "=" _ _ _ eq_refl).
  - exact (Hsecond "/" 63 "=" _ _ _ eq_refl).
Defined.

(** * Further properties of the code *)

(** ** The decoder on every compacted text *)

Lemma word_yield_le3 c0 c1 c2 c3 : 0 <= word_yield c0 c1 c2 c3 <= 3.
Proof.
  unfold word_yield, decodeWord. cbn [Z.add]. block_simpl.
  split_ifs; cbn [fst]; lia.
Qed.

Lemma decode_scan_full pre :
  all_full pre = true ->
  forall tail bd,
    decode_scan (pre ++ tail) bd
    = (fst (decode_scan tail (match pre with [] => bd | _ => 3 end)),
       decoded_bytes pre ++ snd (decode_scan tail (match pre with [] => bd | _ => 3 end))).
Proof.
  intros Hfull. destruct (all_full_length pre Hfull) as [k Hk].
  revert pre Hk Hfull. induction k as [|k IH]; intros pre Hk Hfull tail bd.
  - destruct pre; [|discriminate]. cbn [app decoded_bytes]. now destruct (decode_scan tail bd).
  - destruct pre as [|c0 [|c1 [|c2 [|c3 pre]]]]; cbn [length] in Hk; try lia.
    cbn [all_full] in Hfull. apply andb_prop in Hfull as [Hy Hfull].
    apply Z.eqb_eq in Hy.
    cbn [app decode_scan decoded_bytes]. rewrite Hy. cbn [Z.ltb Z.compare Pos.compare Pos.compare_cont].
    rewrite (IH pre ltac:(lia) Hfull tail 3). cbn [fst snd].
    rewrite <- app_assoc. now destruct pre.
Qed.

Lemma groups_decompose k :
  forall cs,
    length cs = (4 * k)%nat ->
    exists pre tail,
      cs = pre ++ tail /\ all_full pre = true /\
      (tail = [] \/
       exists c0 c1 c2 c3 rest,
         tail = c0 :: c1 :: c2 :: c3 :: rest /\ word_yield c0 c1 c2 c3 < 3 /\
         (length rest mod 4 = 0)%nat).
Proof.
  induction k as [|k IH]; intros cs Hlen.
  - destruct cs; [|discriminate]. exists [], []. auto.
  - destruct cs as [|c0 [|c1 [|c2 [|c3 cs]]]]; cbn [length] in Hlen; try lia.
    destruct (Z.ltb_spec (word_yield c0 c1 c2 c3) 3) as [Hshort|Hfull3].
    + exists [], (c0 :: c1 :: c2 :: c3 :: cs). repeat split. right.
      exists c0, c1, c2, c3, cs. repeat split; [assumption|].
      replace (length cs) with (k * 4)%nat by lia. apply Nat.Div0.mod_mul.
    + destruct (IH cs ltac:(lia)) as (pre & tail & -> & Hfull & Htail).
      exists (c0 :: c1 :: c2 :: c3 :: pre), tail. repeat split; [|assumption].
      cbn [all_full]. rewrite Hfull, andb_true_r. apply Z.eqb_eq.
      pose proof (word_yield_le3 c0 c1 c2 c3). lia.
Qed.

Lemma decode_empty fresh_chars fresh_bytes string :
  strip string = [] -> ITBase64DecodedDataCreate fresh_chars fresh_bytes string = (None, 0).
Proof.
  intros Hstrip. unfold ITBase64DecodedDataCreate.
  rewrite whiteSpaceFreeStringCreate_strip, Hstrip. cbn [length Z.of_nat].
  change (negb (0 mod 4 =? 0)) with false. cbv iota.
  rewrite decode_loop_exit by (cbn [srcIndex]; lia). reflexivity.
Qed.

Lemma decode_zero_group fresh_chars fresh_bytes string pre c0 c1 c2 c3 rest :
  strip string = pre ++ [c0; c1; c2; c3] ++ rest ->
  all_full pre = true ->
  word_yield c0 c1 c2 c3 = 0 ->
  ITBase64DecodedDataCreate fresh_chars fresh_bytes string = (None, 0).
Proof.
  intros Hstrip Hfull Hzero.
  unfold ITBase64DecodedDataCreate. rewrite whiteSpaceFreeStringCreate_strip.
  destruct (negb (Z.of_nat (length (strip string)) mod 4 =? 0)); [reflexivity|].
  destruct (all_full_length pre Hfull) as [k Hk].
  pose proof (strip_length_le string) as Hle.
  rewrite Hstrip in *. rewrite !length_app in *. cbn [length] in *.
  rewrite <- !app_assoc. cbn [app].
  replace (length string) with (k + S (length string - k - 1))%nat by lia.
  match goal with
  | |- context [decode_loop (k + S ?f) (pre ++ c0 :: c1 :: c2 :: c3 :: ?cs) ?e
                            (mkDecodeState 0 0 0 ?d)] =>
      destruct (decode_loop_short_group k f pre c0 c1 c2 c3 cs e d Hk Hfull)
        as (dst' & -> & _); try lia
  end.
  cbn [bytesDecoded]. rewrite Hzero. reflexivity.
Qed.

Lemma decode_by_scan fresh_chars fresh_bytes string :
  3 * Z.of_nat (length (strip string)) <= UINT_MAX ->
  ITBase64DecodedDataCreate fresh_chars fresh_bytes string = decoded_result (strip string).
Proof.
  intros Hfit. unfold decoded_result.
  destruct (Z.eqb_spec (Z.of_nat (length (strip string)) mod 4) 0) as [Hmod|Hmod];
    cbn [negb].
  2:{ unfold ITBase64DecodedDataCreate. rewrite whiteSpaceFreeStringCreate_strip.
      destruct (Z.eqb_spec (Z.of_nat (length (strip string)) mod 4) 0);
        [contradiction | reflexivity]. }
  assert (Hk : exists k, length (strip string) = (4 * k)%nat).
  { exists (length (strip string) / 4)%nat.
    apply Nat.Div0.div_exact. Z.div_mod_to_equations.
    pose proof (Nat.div_mod_eq (length (strip string)) 4).
    pose proof (Nat.mod_upper_bound (length (strip string)) 4). lia. }
  destruct Hk as [k Hk].
  destruct (groups_decompose k _ Hk) as (pre & tail & Hsplit & Hfull & Htail).
  pose proof (decoded_bytes_full_length pre Hfull) as Hbytes.
  rewrite Hsplit, (decode_scan_full pre Hfull).
  destruct Htail as [-> | (c0 & c1 & c2 & c3 & rest & -> & Hshort & Hrest)].
  - rewrite app_nil_r in Hsplit. cbn [decode_scan fst snd]. rewrite app_nil_r.
    destruct pre as [|c pre'] eqn:Hpre.
    + cbn [Z.eqb]. now apply decode_empty.
    + rewrite <- Hpre in *. cbn [Z.eqb].
      rewrite decode_all_full; rewrite ?Hsplit; try assumption.
      * f_equal. rewrite <- Hsplit, Hk in *. Z.div_mod_to_equations. lia.
      * rewrite Hpre. discriminate.
      * now rewrite <- Hsplit.
  - cbn [decode_scan].
    destruct (Z.ltb_spec (word_yield c0 c1 c2 c3) 3); [|lia].
    cbn [fst snd].
    pose proof (word_yield_le3 c0 c1 c2 c3) as Hrange.
    destruct (Z.eqb_spec (word_yield c0 c1 c2 c3) 0) as [Hzero|Hpos].
    + now apply (decode_zero_group _ _ string pre c0 c1 c2 c3 rest).
    + rewrite (decode_padded_group _ _ string pre c0 c1 c2 c3 rest);
        try assumption; try lia.
      f_equal. rewrite length_app, word_bytes_length.
      destruct (all_full_length pre Hfull) as [j Hj]. rewrite Hj in *.
      Z.div_mod_to_equations. lia.
Qed.

Lemma decode_scan_bounds k :
  forall cs bd,
    length cs = (4 * k)%nat -> 0 <= bd <= 3 ->
    0 <= fst (decode_scan cs bd) <= 3
    /\ (4 * length (snd (decode_scan cs bd)) <= 3 * length cs)%nat
    /\ (cs <> [] -> fst (decode_scan cs bd) <> 0 ->
        (1 <= length (snd (decode_scan cs bd)))%nat)
    /\ (cs = [] -> fst (decode_scan cs bd) = bd).
Proof.
  induction k as [|k IH]; intros cs bd Hlen Hbd.
  - destruct cs; [|discriminate]. cbn. repeat split; try lia. congruence.
  - destruct cs as [|c0 [|c1 [|c2 [|c3 cs]]]]; cbn [length] in Hlen; try lia.
    pose proof (word_yield_le3 c0 c1 c2 c3) as Hy.
    pose proof (word_bytes_length c0 c1 c2 c3) as Hb.
    cbn [decode_scan].
    destruct (Z.ltb_spec (word_yield c0 c1 c2 c3) 3).
    + cbn [fst snd length]. repeat split; try lia. discriminate.
    + destruct (IH cs (word_yield c0 c1 c2 c3) ltac:(lia) ltac:(lia))
        as (Hn & Hlen' & _ & _).
      destruct (decode_scan cs (word_yield c0 c1 c2 c3)) as [m bs].
      cbn [fst snd length] in *. rewrite length_app.
      repeat split; try lia. discriminate.
Qed.

(** X9.  Under the size bound (three times the compacted length fits an
    [unsigned int]), the decoder returns what [decoded_result] computes from
    the compacted text alone: failure for a length that is not a multiple of
    four; otherwise the bytes of the groups up to the first group yielding
    fewer than three bytes, with their number, unless no group was decoded or
    that group yielded nothing, which is the failure [NULL], 0. *)
Theorem decoder_is_group_scan fresh_chars fresh_bytes string :
  3 * Z.of_nat (length (strip string)) <= UINT_MAX ->
  ITBase64DecodedDataCreate fresh_chars fresh_bytes string = decoded_result (strip string).
Proof. intros Hfit. apply decode_by_scan, Hfit. Qed.

Lemma decoder_is_group_scan_witness :
  3 * Z.of_nat (length (strip (text "TWFu TWE= TWFu"))) <= UINT_MAX
  /\ forall fresh_chars fresh_bytes,
      ITBase64DecodedDataCreate fresh_chars fresh_bytes (text "TWFu TWE= TWFu")
      = decoded_result (strip (text "TWFu TWE= TWFu")).
Proof.
  assert (Hfit : 3 * Z.of_nat (length (strip (text "TWFu TWE= TWFu"))) <= UINT_MAX)
    by (vm_compute; discriminate).
  split; [exact Hfit|].
  intros fresh_chars fresh_bytes.
  exact (decoder_is_group_scan fresh_chars fresh_bytes (text "TWFu TWE= TWFu") Hfit).
Defined.

(** X10.  Under the size bound, a successful decode reports exactly the number
    of bytes of the returned block, at least one byte and at most three
    quarters of the compacted length; a failed decode reports 0. *)
Theorem decoder_result_shape fresh_chars fresh_bytes string :
  3 * Z.of_nat (length (strip string)) <= UINT_MAX ->
  match ITBase64DecodedDataCreate fresh_chars fresh_bytes string with
  | (Some bs, n) =>
      n = Z.of_nat (length bs) /\ 1 <= n /\ 4 * n <= 3 * Z.of_nat (length (strip string))
  | (None, n) => n = 0
  end.
Proof.
  intros Hfit. rewrite decode_by_scan by assumption. unfold decoded_result.
  destruct (Z.eqb_spec (Z.of_nat (length (strip string)) mod 4) 0) as [Hmod|Hmod];
    cbn [negb]; [|reflexivity].
  assert (Hk : length (strip string) = (4 * (length (strip string) / 4))%nat).
  { apply Nat.Div0.div_exact. Z.div_mod_to_equations.
    pose proof (Nat.div_mod_eq (length (strip string)) 4).
    pose proof (Nat.mod_upper_bound (length (strip string)) 4). lia. }
  destruct (decode_scan_bounds _ (strip string) 0 Hk ltac:(lia))
    as (Hn & Hlen & Hne & Hnil).
  destruct (decode_scan (strip string) 0) as [n bs]. cbn [fst snd] in *.
  destruct (Z.eqb_spec n 0) as [Hz|Hnz]; [reflexivity|].
  split; [reflexivity|].
  assert (Hcs : strip string <> []) by (intros E; apply Hnz, Hnil, E).
  specialize (Hne Hcs Hnz). lia.
Qed.

Lemma decoder_result_shape_witness :
  3 * Z.of_nat (length (strip (text "TWFu TWE="))) <= UINT_MAX
  /\ forall fresh_chars fresh_bytes,
      match ITBase64DecodedDataCreate fresh_chars fresh_bytes (text "TWFu TWE=") with
      | (Some bs, n) =>
          n = Z.of_nat (length bs) /\ 1 <= n
          /\ 4 * n <= 3 * Z.of_nat (length (strip (text "TWFu TWE=")))
      | (None, n) => n = 0
      end.
Proof.
  assert (Hfit : 3 * Z.of_nat (length (strip (text "TWFu TWE="))) <= UINT_MAX)
    by (vm_compute; discriminate).
  split; [exact Hfit|].
  intros fresh_chars fresh_bytes.
  exact (decoder_result_shape fresh_chars fresh_bytes (text "TWFu TWE=") Hfit).
Defined.

(** ** Words and symbols *)

(** X3.  A word that is not the last one survives the two word functions:
    decoding the four characters [encodeWord] writes for three bytes (flag
    clear) returns 3 and stores the same three bytes, whatever the
    destination held before. *)
Theorem word_round_trip fresh b0 b1 b2 d0 d1 d2 :
  decodeWord (encodeWord [b0; b1; b2] 0 (malloc fresh 4) 0 0) 0 [d0; d1; d2] 0
  = (3, [b0; b1; b2]).
Proof.
  pose proof (encodeWord_rest b0 b1 b2 [] (fresh 0%nat) (fresh 1%nat) (fresh 2%nat)
                               (fresh 3%nat) [] 0) as Hword.
  cbn [app length Z.of_nat] in Hword. rewrite app_nil_r in Hword.
  change (malloc fresh 4) with [fresh 0%nat; fresh 1%nat; fresh 2%nat; fresh 3%nat].
  rewrite Hword.
  pose proof (sextets_range b0 b1 b2) as Hs.
  unfold encoded_word, pad_word, sextets in *. destruct Hs as (S0 & S1 & S2 & S3).
  change (negb (0 =? 0)) with false. rewrite !andb_false_r.
  rewrite decodeWord_four_symbols by assumption.
  pose proof (byte_val_range b0). pose proof (byte_val_range b1).
  pose proof (byte_val_range b2).
  rewrite unpack_byte0, unpack_byte1_high, unpack_byte1_low, nibbles_of_byte,
    unpack_byte2, !to_uint8_byte_val by assumption.
  reflexivity.
Qed.

(** X4.  [charToByte] is the inverse of the encoding table: it sends the
    symbol at index [s] back to [s]; on every character it returns either the
    error value [0xff] or a value below 64; and every character other than
    ['='] that it accepts is the table symbol at the value returned. *)
Theorem charToByte_inverts_table :
  (forall s, 0 <= s < 64 -> charToByte (table_at s) = s)
  /\ (forall c, charToByte c = 0xff \/ 0 <= charToByte c < 64)
  /\ (forall c, charToByte c <> 0xff -> c <> "=" -> table_at (charToByte c) = c).
Proof.
  split; [|split].
  - intros s Hs. apply charToByte_table_at. unfold is_sextet. lia.
  - intros c. destruct c as [[] [] [] [] [] [] [] []];
      match goal with
      | |- context [charToByte ?x] =>
          let v := eval vm_compute in (charToByte x) in change (charToByte x) with v
      end; lia.
  - intros c. destruct c as [[] [] [] [] [] [] [] []]; vm_compute; intros Hff Hpad;
      first [reflexivity | exfalso; apply Hff; reflexivity
            | exfalso; apply Hpad; reflexivity].
Qed.

Lemma charToByte_inverts_table_witness :
  charToByte (table_at 26) = 26
  /\ (charToByte "!" = 0xff \/ 0 <= charToByte "!" < 64)
  /\ table_at (charToByte "z") = "z".
Proof.
  destruct charToByte_inverts_table as (Hfwd & Hrange & Hback).
  split; [|split].
  - apply Hfwd. lia.
  - apply Hrange.
  - apply Hback; vm_compute; discriminate.
Defined.

(** ** The whitespace filter *)

(** X5.  [whiteSpaceFreeStringCreate] returns a block of [len] cells and a
    count [n <= len]; the first [n] cells are the characters of the input that
    are not whitespace, in their order, and [n] is their number. *)
Theorem whitespace_filter_result fresh str :
  let '(dst, n) := whiteSpaceFreeStringCreate fresh str in
  length dst = length str
  /\ 0 <= n <= Z.of_nat (length str)
  /\ n = Z.of_nat (length (strip str))
  /\ firstn (Z.to_nat n) dst = strip str
  /\ forallb (fun c => negb (isWhiteSpace c)) (firstn (Z.to_nat n) dst) = true.
Proof.
  rewrite whiteSpaceFreeStringCreate_strip.
  pose proof (strip_length_le str) as Hle.
  rewrite Nat2Z.id, firstn_app, firstn_all, Nat.sub_diag, firstn_O, app_nil_r.
  rewrite length_app, fresh_cells_length.
  repeat split; try lia.
  apply forallb_forall. intros c Hc. unfold strip in Hc.
  apply filter_In in Hc. tauto.
Qed.

(** ** The shape of the encoded text *)

Lemma encoded_text_parts k full rest :
  length full = (3 * k)%nat -> (length rest < 3)%nat ->
  encoded_text (full ++ rest) = encoded_words full ++ encoded_rest rest.
Proof.
  intros Hfull Hrest. unfold encoded_text.
  replace (length (full ++ rest) - length (full ++ rest) mod 3)%nat with (length full).
  - rewrite firstn_app, firstn_all, Nat.sub_diag, firstn_O, app_nil_r.
    rewrite skipn_app, skipn_all, Nat.sub_diag. reflexivity.
  - rewrite length_app, Hfull.
    replace (3 * k + length rest)%nat with (length rest + k * 3)%nat by lia.
    rewrite Nat.Div0.mod_add, Nat.mod_small by lia. lia.
Qed.

Lemma encoded_words_app k :
  forall a b, length a = (3 * k)%nat ->
              encoded_words (a ++ b) = encoded_words a ++ encoded_words b.
Proof.
  induction k as [|k IH]; intros a b Hlen.
  - destruct a; [reflexivity | discriminate].
  - destruct a as [|b0 [|b1 [|b2 a]]]; cbn [length] in Hlen; try lia.
    cbn [app encoded_words]. rewrite (IH a b) by lia. apply app_assoc.
Qed.

Lemma table_symbol_in_alphabet s : is_sextet s = true -> in_alphabet (table_at s) = true.
Proof.
  intros Hs.
  apply (forallb_range (fun s => in_alphabet (table_at s)) 64);
    [vm_compute; reflexivity | unfold is_sextet in Hs; lia].
Qed.

Lemma encoded_words_alphabet k :
  forall full, length full = (3 * k)%nat ->
               forallb in_alphabet (encoded_words full) = true.
Proof.
  induction k as [|k IH]; intros full Hlen.
  - destruct full; [reflexivity | discriminate].
  - destruct full as [|b0 [|b1 [|b2 full]]]; cbn [length] in Hlen; try lia.
    cbn [encoded_words]. rewrite forallb_app, (IH full) by lia.
    pose proof (sextets_range b0 b1 b2) as Hs.
    unfold encoded_word, pad_word, sextets in *. destruct Hs as (S0 & S1 & S2 & S3).
    change (negb (0 =? 0)) with false. rewrite !andb_false_r.
    cbn [forallb]. now rewrite !table_symbol_in_alphabet.
Qed.

Lemma encoded_rest_one b0 :
  exists t0 t1,
    encoded_rest [b0] = [t0; t1; "="; "="]
    /\ in_alphabet t0 = true /\ in_alphabet t1 = true.
Proof.
  pose proof (sextets_range b0 x00 x00) as Hs.
  cbn [encoded_rest]. unfold encoded_word, pad_word, sextets in *.
  destruct Hs as (S0 & S1 & S2 & S3).
  rewrite table_at_A by assumption.
  change (Z.lor (Z.shiftl (Z.land (byte_val x00) 15) 2)
                (Z.shiftr (Z.land (byte_val x00) 192) 6) =? 0) with true.
  cbn [andb negb Z.eqb].
  do 2 eexists. split; [reflexivity|].
  split; apply table_symbol_in_alphabet; assumption.
Qed.

Lemma encoded_rest_two b0 b1 :
  exists t0 t1 pad,
    encoded_rest [b0; b1] = [t0; t1] ++ pad
    /\ in_alphabet t0 = true /\ in_alphabet t1 = true
    /\ ((exists t2, pad = [t2; "="] /\ in_alphabet t2 = true) \/ pad = ["="; "="]).
Proof.
  pose proof (sextets_range b0 b1 x00) as Hs.
  cbn [encoded_rest]. unfold encoded_word, pad_word, sextets in *.
  destruct Hs as (S0 & S1 & S2 & S3).
  rewrite !table_at_A by assumption.
  change (Z.land (byte_val x00) 63 =? 0) with true.
  cbn [andb negb Z.eqb].
  destruct (_ =? 0).
  - exists (table_at (Z.shiftr (Z.land (byte_val b0) 252) 2)),
      (table_at (Z.lor (Z.shiftl (Z.land (byte_val b0) 3) 4)
                       (Z.shiftr (Z.land (byte_val b1) 240) 4))),
      ["="; "="].
    split; [reflexivity|]. rewrite !table_symbol_in_alphabet by assumption. auto.
  - exists (table_at (Z.shiftr (Z.land (byte_val b0) 252) 2)),
      (table_at (Z.lor (Z.shiftl (Z.land (byte_val b0) 3) 4)
                       (Z.shiftr (Z.land (byte_val b1) 240) 4))),
      [table_at (Z.lor (Z.shiftl (Z.land (byte_val b1) 15) 2)
                       (Z.shiftr (Z.land (byte_val x00) 192) 6)); "="].
    split; [reflexivity|]. rewrite !table_symbol_in_alphabet by assumption.
    repeat split. left. eexists. split; [reflexivity|].
    now apply table_symbol_in_alphabet.
Qed.

(** X6.  The text returned by the encoder (size within [unsigned int]) is a
    run of alphabet symbols followed by padding: no padding when the length is
    a multiple of three, ["=="] when one byte is left over, and ["="] or
    ["=="] when two bytes are left over. *)
Theorem encoder_output_shape fresh data :
  encoded_size (Z.of_nat (length data)) <= UINT_MAX ->
  exists body pad,
    encoded_string fresh data = body ++ pad
    /\ forallb in_alphabet body = true
    /\ match (length data mod 3)%nat with
       | 0%nat => pad = []
       | 1%nat => pad = ["="; "="]
       | _ => pad = ["="] \/ pad = ["="; "="]
       end.
Proof.
  intros Hfit. rewrite encoded_string_text by assumption.
  destruct (encoded_text_split data) as (k & full & rest & Hdata & Hf & Hr & -> & ->).
  pose proof (encoded_words_alphabet k full Hf) as Hbody.
  destruct rest as [|r0 [|r1 [|r2 rest]]]; cbn [length] in *; try lia.
  - exists (encoded_words full), []. cbn [encoded_rest]. auto.
  - destruct (encoded_rest_one r0) as (t0 & t1 & -> & H0 & H1).
    exists (encoded_words full ++ [t0; t1]), ["="; "="].
    rewrite <- app_assoc, forallb_app, Hbody. cbn [forallb app].
    rewrite H0, H1. auto.
  - destruct (encoded_rest_two r0 r1) as (t0 & t1 & pad & -> & H0 & H1 & Hpad).
    destruct Hpad as [(t2 & -> & H2) | ->].
    + exists (encoded_words full ++ [t0; t1; t2]), ["="].
      rewrite <- !app_assoc, forallb_app, Hbody. cbn [forallb app].
      rewrite H0, H1, H2. auto.
    + exists (encoded_words full ++ [t0; t1]), ["="; "="].
      rewrite <- !app_assoc, forallb_app, Hbody. cbn [forallb app].
      rewrite H0, H1. auto.
Qed.

Lemma encoder_output_shape_witness :
  encoded_size (Z.of_nat (length ["M"%byte; "a"%byte; "n"%byte; "M"%byte])) <= UINT_MAX
  /\ forall fresh,
      exists body pad,
        encoded_string fresh ["M"%byte; "a"%byte; "n"%byte; "M"%byte] = body ++ pad
        /\ forallb in_alphabet body = true
        /\ pad = ["="; "="].
Proof.
  assert (Hfit : encoded_size (Z.of_nat (length ["M"%byte; "a"%byte; "n"%byte; "M"%byte]))
                 <= UINT_MAX) by (vm_compute; discriminate).
  split; [exact Hfit|].
  intros fresh.
  exact (encoder_output_shape fresh ["M"%byte; "a"%byte; "n"%byte; "M"%byte] Hfit).
Defined.

(** ** The encoder on buffers put together *)

Lemma encoded_size_mono L1 L2 : 0 <= L1 <= L2 -> encoded_size L1 <= encoded_size L2.
Proof. intros HL. unfold encoded_size. Z.div_mod_to_equations. lia. Qed.

(** X7.  Encoding works word by word: when the length of [a] is a multiple of
    three, the text of [a ++ b] is the text of [a] followed by the text of
    [b] (sizes within [unsigned int]). *)
Theorem encoder_concatenation fresh a b :
  (length a mod 3 = 0)%nat ->
  encoded_size (Z.of_nat (length (a ++ b))) <= UINT_MAX ->
  encoded_string fresh (a ++ b) = encoded_string fresh a ++ encoded_string fresh b.
Proof.
  intros Hmod Hfit. rewrite length_app in Hfit.
  pose proof (encoded_size_mono (Z.of_nat (length a)) (Z.of_nat (length a + length b))
                ltac:(lia)) as Ha.
  pose proof (encoded_size_mono (Z.of_nat (length b)) (Z.of_nat (length a + length b))
                ltac:(lia)) as Hb.
  rewrite !encoded_string_text by (rewrite ?length_app; lia).
  apply Nat.Div0.div_exact in Hmod. set (k := (length a / 3)%nat) in *.
  destruct (encoded_text_split b) as (j & full & rest & Hsplit & Hf & Hr & -> & _).
  rewrite <- (app_nil_r a) at 2.
  rewrite (encoded_text_parts k a []) by (cbn [length]; lia).
  rewrite Hsplit, app_assoc.
  rewrite (encoded_text_parts (k + j) (a ++ full) rest)
    by (rewrite ?length_app; lia).
  rewrite (encoded_words_app k a full) by assumption.
  cbn [encoded_rest]. now rewrite app_nil_r, app_assoc.
Qed.

Lemma encoder_concatenation_witness :
  ((length ["M"%byte; "a"%byte; "n"%byte] mod 3 = 0)%nat
   /\ encoded_size (Z.of_nat (length (["M"%byte; "a"%byte; "n"%byte] ++ ["M"%byte])))
      <= UINT_MAX)
  /\ forall fresh,
      encoded_string fresh (["M"%byte; "a"%byte; "n"%byte] ++ ["M"%byte])
      = encoded_string fresh ["M"%byte; "a"%byte; "n"%byte]
        ++ encoded_string fresh ["M"%byte].
Proof.
  assert (Hfit : encoded_size (Z.of_nat (length (["M"%byte; "a"%byte; "n"%byte]
                                                  ++ ["M"%byte]))) <= UINT_MAX)
    by (vm_compute; discriminate).
  split; [split; [reflexivity | exact Hfit]|].
  intros fresh.
  exact (encoder_concatenation fresh ["M"%byte; "a"%byte; "n"%byte] ["M"%byte]
           eq_refl Hfit).
Defined.

(** X8.  The encoder is not injective: for a buffer with one byte left over
    after its complete words, appending a zero byte does not change the text
    returned (sizes within [unsigned int]). *)
Theorem encoder_trailing_zero_collision fresh data :
  (length data mod 3 = 1)%nat ->
  encoded_size (Z.of_nat (length (data ++ [x00]))) <= UINT_MAX ->
  encoded_string fresh (data ++ [x00]) = encoded_string fresh data
  /\ data ++ [x00] <> data.
Proof.
  intros Hmod Hfit. split.
  - rewrite length_app in Hfit. cbn [length] in Hfit.
    pose proof (encoded_size_mono (Z.of_nat (length data)) (Z.of_nat (length data + 1))
                  ltac:(lia)) as Hdata.
    rewrite !encoded_string_text by (rewrite ?length_app; cbn [length]; lia).
    destruct (encoded_text_split data) as (k & full & rest & Hsplit & Hf & Hr & -> & Hm).
    rewrite Hmod in Hm.
    destruct rest as [|r0 [|r1 rest]]; cbn [length] in Hm; try discriminate.
    rewrite Hsplit, <- app_assoc. cbn [app].
    rewrite (encoded_text_parts k full [r0; x00]) by (cbn [length]; lia).
    reflexivity.
  - intros E. apply (f_equal (@length byte)) in E.
    rewrite length_app in E. cbn [length] in E. lia.
Qed.

Lemma encoder_trailing_zero_collision_witness :
  ((length ["M"%byte] mod 3 = 1)%nat
   /\ encoded_size (Z.of_nat (length (["M"%byte] ++ [x00]))) <= UINT_MAX)
  /\ forall fresh,
      encoded_string fresh (["M"%byte] ++ [x00]) = encoded_string fresh ["M"%byte]
      /\ ["M"%byte] ++ [x00] <> ["M"%byte].
Proof.
  assert (Hfit : encoded_size (Z.of_nat (length (["M"%byte] ++ [x00]))) <= UINT_MAX)
    by (vm_compute; discriminate).
  split; [split; [reflexivity | exact Hfit]|].
  intros fresh.
  exact (encoder_trailing_zero_collision fresh ["M"%byte] eq_refl Hfit).
Defined.

(** ** From text to bytes and back *)

Lemma forallb_range3 (f : Z -> Z -> Z -> bool) (n : nat) :
  forallb (fun x => forallb (fun y => forallb (f x y) (map Z.of_nat (seq 0 n)))
                            (map Z.of_nat (seq 0 n)))
          (map Z.of_nat (seq 0 n)) = true ->
  forall x y z, 0 <= x < Z.of_nat n -> 0 <= y < Z.of_nat n -> 0 <= z < Z.of_nat n ->
                f x y z = true.
Proof.
  intros Hall x y z Hx Hy Hz.
  apply (forallb_range (f x y) n); [|assumption].
  apply (forallb_range2
           (fun x y => forallb (f x y) (map Z.of_nat (seq 0 n))) n n); assumption.
Qed.

Lemma byte_val_to_uint8 z : 0 <= z < 256 -> byte_val (to_uint8 z) = z.
Proof.
  intros Hz. unfold to_uint8, byte_val. rewrite Z.mod_small by assumption.
  destruct (Byte.of_N (Z.to_N z)) as [b|] eqn:Hb.
  - apply Byte.to_of_N in Hb. rewrite Hb. lia.
  - apply Byte.of_N_None_iff in Hb. lia.
Qed.

Lemma alphabet_char_is_symbol c :
  in_alphabet c = true ->
  is_sextet (charToByte c) = true /\ table_at (charToByte c) = c
  /\ isWhiteSpace c = false.
Proof.
  destruct c as [[] [] [] [] [] [] [] []]; vm_compute; intros H;
    first [discriminate H | repeat split].
Qed.


Lemma packed_bytes_range s t :
  is_sextet s = true -> is_sextet t = true ->
  0 <= pack0 s t < 256 /\ 0 <= pack1 s t < 256 /\ 0 <= pack2 s t < 256.
Proof.
  intros Hs Ht. unfold is_sextet in *.
  assert (H : ((0 <=? pack0 s t) && (pack0 s t <? 256)
               && ((0 <=? pack1 s t) && (pack1 s t <? 256))
               && ((0 <=? pack2 s t) && (pack2 s t <? 256))) = true).
  { apply (forallb_range2
             (fun s t => (0 <=? pack0 s t) && (pack0 s t <? 256)
                         && ((0 <=? pack1 s t) && (pack1 s t <? 256))
                         && ((0 <=? pack2 s t) && (pack2 s t <? 256))) 64 64);
      [vm_compute; reflexivity | lia | lia]. }
  lia.
Qed.

Lemma repack_sextets s0 s1 s2 s3 :
  is_sextet s0 = true -> is_sextet s1 = true ->
  is_sextet s2 = true -> is_sextet s3 = true ->
  Z.shiftr (Z.land (pack0 s0 s1) 0xFC) 2 = s0
  /\ Z.lor (Z.shiftl (Z.land (pack0 s0 s1) 0x03) 4)
           (Z.shiftr (Z.land (pack1 s1 s2) 0xF0) 4) = s1
  /\ Z.lor (Z.shiftl (Z.land (pack1 s1 s2) 0x0F) 2)
           (Z.shiftr (Z.land (pack2 s2 s3) 0xC0) 6) = s2
  /\ Z.land (pack2 s2 s3) 0x3F = s3.
Proof.
  intros S0 S1 S2 S3. unfold is_sextet in *.
  repeat split; apply Z.eqb_eq.
  - apply (forallb_range2
             (fun s0 s1 => Z.shiftr (Z.land (pack0 s0 s1) 0xFC) 2 =? s0) 64 64);
      [vm_compute; reflexivity | lia | lia].
  - apply (forallb_range3
             (fun s0 s1 s2 =>
                Z.lor (Z.shiftl (Z.land (pack0 s0 s1) 0x03) 4)
                      (Z.shiftr (Z.land (pack1 s1 s2) 0xF0) 4) =? s1) 64);
      [vm_compute; reflexivity | lia | lia | lia].
  - apply (forallb_range3
             (fun s1 s2 s3 =>
                Z.lor (Z.shiftl (Z.land (pack1 s1 s2) 0x0F) 2)
                      (Z.shiftr (Z.land (pack2 s2 s3) 0xC0) 6) =? s2) 64);
      [vm_compute; reflexivity | lia | lia | lia].
  - apply (forallb_range2 (fun s2 s3 => Z.land (pack2 s2 s3) 0x3F =? s3) 64 64);
      [vm_compute; reflexivity | lia | lia].
Qed.

Lemma reencode_word s0 s1 s2 s3 :
  is_sextet s0 = true -> is_sextet s1 = true ->
  is_sextet s2 = true -> is_sextet s3 = true ->
  word_yield (table_at s0) (table_at s1) (table_at s2) (table_at s3) = 3
  /\ word_bytes (table_at s0) (table_at s1) (table_at s2) (table_at s3)
     = [to_uint8 (pack0 s0 s1); to_uint8 (pack1 s1 s2); to_uint8 (pack2 s2 s3)]
  /\ encoded_word (to_uint8 (pack0 s0 s1)) (to_uint8 (pack1 s1 s2))
                  (to_uint8 (pack2 s2 s3)) 0
     = [table_at s0; table_at s1; table_at s2; table_at s3].
Proof.
  intros S0 S1 S2 S3.
  unfold word_bytes, word_yield, word_cells.
  rewrite !decodeWord_four_symbols by assumption. cbn [fst snd].
  split; [reflexivity|]. split; [reflexivity|].
  unfold encoded_word, pad_word, sextets.
  change (negb (0 =? 0)) with false. rewrite !andb_false_r.
  destruct (packed_bytes_range s0 s1 S0 S1) as (R0 & _ & _).
  destruct (packed_bytes_range s1 s2 S1 S2) as (_ & R1 & _).
  destruct (packed_bytes_range s2 s3 S2 S3) as (_ & _ & R2).
  rewrite !byte_val_to_uint8 by assumption.
  destruct (repack_sextets s0 s1 s2 s3 S0 S1 S2 S3) as (-> & -> & -> & ->).
  reflexivity.
Qed.

Lemma alphabet_text_decodes k :
  forall t,
    length t = (4 * k)%nat -> forallb in_alphabet t = true ->
    all_full t = true /\ encoded_words (decoded_bytes t) = t /\ strip t = t
    /\ length (decoded_bytes t) = (3 * k)%nat.
Proof.
  induction k as [|k IH]; intros t Hlen Halpha.
  - destruct t; [repeat split | discriminate].
  - destruct t as [|c0 [|c1 [|c2 [|c3 t]]]]; cbn [length] in Hlen; try lia.
    cbn [forallb] in Halpha.
    apply andb_prop in Halpha as [A0 Halpha]. apply andb_prop in Halpha as [A1 Halpha].
    apply andb_prop in Halpha as [A2 Halpha]. apply andb_prop in Halpha as [A3 Halpha].
    destruct (IH t ltac:(lia) Halpha) as (Hfull & Hback & Hstrip & Hbytes).
    destruct (alphabet_char_is_symbol c0 A0) as (S0 & E0 & W0).
    destruct (alphabet_char_is_symbol c1 A1) as (S1 & E1 & W1).
    destruct (alphabet_char_is_symbol c2 A2) as (S2 & E2 & W2).
    destruct (alphabet_char_is_symbol c3 A3) as (S3 & E3 & W3).
    destruct (reencode_word _ _ _ _ S0 S1 S2 S3) as (Hy & Hb & He).
    rewrite E0, E1, E2, E3 in *.
    cbn [all_full decoded_bytes strip filter]. fold (strip t).
    rewrite Hy, Hb, Hfull, Hstrip, W0, W1, W2, W3. cbn [app encoded_words negb].
    rewrite He, Hback. cbn [app length]. repeat split. lia.
Qed.

(** X11.  A non-empty text of alphabet symbols only, whose length is a
    multiple of four (and within the size bound), always decodes: the decoder
    returns three bytes for every four characters, and encoding these bytes
    gives the text back. *)
Theorem unpadded_text_round_trip fresh fresh_chars fresh_bytes t :
  t <> [] ->
  forallb in_alphabet t = true ->
  (length t mod 4 = 0)%nat ->
  3 * Z.of_nat (length t) <= UINT_MAX ->
  exists bs,
    ITBase64DecodedDataCreate fresh_chars fresh_bytes t = (Some bs, Z.of_nat (length bs))
    /\ (4 * length bs = 3 * length t)%nat
    /\ encoded_string fresh bs = t.
Proof.
  intros Hne Halpha Hmod Hfit.
  apply Nat.Div0.div_exact in Hmod. set (k := (length t / 4)%nat) in *.
  destruct (alphabet_text_decodes k t Hmod Halpha) as (Hfull & Hback & Hstrip & Hbytes).
  exists (decoded_bytes t). split; [|split].
  - rewrite decode_all_full; rewrite ?Hstrip; try assumption.
    f_equal. rewrite Hbytes, Hmod. Z.div_mod_to_equations. lia.
  - lia.
  - rewrite encoded_string_text.
    + rewrite <- (app_nil_r (decoded_bytes t)).
      rewrite (encoded_text_parts k (decoded_bytes t) []) by (cbn [length]; lia).
      cbn [encoded_rest]. now rewrite app_nil_r.
    + rewrite Hbytes. unfold encoded_size. Z.div_mod_to_equations. lia.
Qed.

Lemma unpadded_text_round_trip_witness :
  (text "TWFu+/09" <> []
   /\ forallb in_alphabet (text "TWFu+/09") = true
   /\ (length (text "TWFu+/09") mod 4 = 0)%nat
   /\ 3 * Z.of_nat (length (text "TWFu+/09")) <= UINT_MAX)
  /\ forall fresh fresh_chars fresh_bytes,
      exists bs,
        ITBase64DecodedDataCreate fresh_chars fresh_bytes (text "TWFu+/09")
        = (Some bs, Z.of_nat (length bs))
        /\ (4 * length bs = 3 * length (text "TWFu+/09"))%nat
        /\ encoded_string fresh bs = text "TWFu+/09".
Proof.
  assert (Hne : text "TWFu+/09" <> []) by discriminate.
  assert (Hfit : 3 * Z.of_nat (length (text "TWFu+/09")) <= UINT_MAX)
    by (vm_compute; discriminate).
  split.
  - split; [exact Hne|]. split; [reflexivity|]. split; [reflexivity | exact Hfit].
  - intros fresh fresh_chars fresh_bytes.
    exact (unpadded_text_round_trip fresh fresh_chars fresh_bytes (text "TWFu+/09")
             Hne eq_refl eq_refl Hfit).
Defined.

(** ** What the word functions touch *)

(** X13.  [decodeWord] reads four characters and stores into at most three
    cells: every cell before and after [dest[0..2]] keeps its value, the
    count is between 0 and 3, [dest[2]] is stored only when 3 is returned and
    [dest[1]] is not stored when 1 is returned.  (When 0 is returned one or
    two cells may already have been stored.) *)
Theorem decodeWord_footprint cpre c0 c1 c2 c3 csuf dpre d0 d1 d2 dsuf :
  exists n e0 e1 e2,
    decodeWord (cpre ++ c0 :: c1 :: c2 :: c3 :: csuf) (Z.of_nat (length cpre))
               (dpre ++ d0 :: d1 :: d2 :: dsuf) (Z.of_nat (length dpre))
    = (n, dpre ++ [e0; e1; e2] ++ dsuf)
    /\ 0 <= n <= 3
    /\ (n < 3 -> e2 = d2)
    /\ (n = 1 -> e1 = d1).
Proof.
  rewrite decodeWord_frame.
  unfold word_yield, word_cells, decodeWord. cbn [Z.add]. block_simpl.
  split_ifs; cbn [fst snd]; do 4 eexists;
    (split; [reflexivity|]); repeat split; intros; try reflexivity; lia.
Qed.

(** X14.  [encodeWord] reads three bytes and stores exactly the four cells
    [dest[0..3]], leaving every other cell of the block as it was.  Each of
    the four characters is an alphabet symbol or ['=']; with the flag clear
    all four are alphabet symbols. *)
Theorem encodeWord_footprint bpre b0 b1 b2 bsuf dpre d0 d1 d2 d3 dsuf lastWord :
  exists w,
    encodeWord (bpre ++ b0 :: b1 :: b2 :: bsuf) (Z.of_nat (length bpre))
               (dpre ++ d0 :: d1 :: d2 :: d3 :: dsuf) (Z.of_nat (length dpre)) lastWord
    = dpre ++ w ++ dsuf
    /\ length w = 4%nat
    /\ forallb (fun c => in_alphabet c || Ascii.eqb c "=") w = true
    /\ (lastWord = 0 -> forallb in_alphabet w = true).
Proof.
  rewrite encodeWord_frame. exists (encoded_word b0 b1 b2 lastWord).
  split; [reflexivity|]. split; [apply encoded_word_length|].
  pose proof (sextets_range b0 b1 b2) as Hs.
  unfold encoded_word, pad_word, sextets in *. destruct Hs as (S0 & S1 & S2 & S3).
  apply table_symbol_in_alphabet in S0, S1, S2, S3.
  split.
  - split_ifs; cbn [forallb]; rewrite ?S0, ?S1, ?S2, ?S3; reflexivity.
  - intros ->. change (negb (0 =? 0)) with false. rewrite !andb_false_r.
    cbn [forallb]. now rewrite S0, S1, S2, S3.
Qed.

(** ** Instances *)

Lemma round_trip_well_padded_witness :
  (["M"%byte; "a"%byte] <> []
   /\ 3 * encoded_size (Z.of_nat (length ["M"%byte; "a"%byte])) <= UINT_MAX)
  /\ forall fresh fresh_chars fresh_bytes,
      ITBase64DecodedDataCreate fresh_chars fresh_bytes
        (encoded_string fresh ["M"%byte; "a"%byte])
      = (Some ["M"%byte; "a"%byte], Z.of_nat (length ["M"%byte; "a"%byte])).
Proof.
  assert (Hne : ["M"%byte; "a"%byte] <> []) by discriminate.
  assert (Hlow : (length ["M"%byte; "a"%byte] mod 3 = 2)%nat ->
                 Z.land (byte_val (last ["M"%byte; "a"%byte] x00)) 0x0F <> 0)
    by (intros _; vm_compute; discriminate).
  assert (Hfit : 3 * encoded_size (Z.of_nat (length ["M"%byte; "a"%byte])) <= UINT_MAX)
    by (vm_compute; discriminate).
  split; [split; [exact Hne | exact Hfit]|].
  intros fresh fresh_chars fresh_bytes.
  exact (round_trip_well_padded fresh fresh_chars fresh_bytes ["M"%byte; "a"%byte]
           Hne Hlow Hfit).
Defined.

(** X2.  For a buffer with two bytes left over whose last byte has its low
    four bits zero, the encoder pads the last word like a one-byte word: its
    text is a run of alphabet symbols followed by ["=="].  Decoding that text
    gives the buffer without its last byte (three times the encoded size
    within [unsigned int]). *)
Lemma round_trip_overpadded fresh fresh_chars fresh_bytes data :
  (length data mod 3 = 2)%nat ->
  Z.land (byte_val (last data x00)) 0x0F = 0 ->
  3 * encoded_size (Z.of_nat (length data)) <= UINT_MAX ->
  (exists body,
      encoded_string fresh data = body ++ ["="; "="]
      /\ forallb in_alphabet body = true)
  /\ ITBase64DecodedDataCreate fresh_chars fresh_bytes (encoded_string fresh data)
     = (Some (removelast data), Z.of_nat (length data) - 1).
Proof.
  intros Hmod2 Hlow Hfit.
  pose proof (encoded_size_nonneg (Z.of_nat (length data)) ltac:(lia)) as Hpos.
  rewrite encoded_string_text by lia.
  pose proof (encoded_text_length data) as Hsize.
  destruct (encoded_text_split data) as (k & full & rest & Hdata & Hf & Hr & Htext & Hmod).
  rewrite Htext in *. clear Htext.
  destruct (encoded_words_decode k full Hf) as (Hfull & Hbytes & Hstrip).
  pose proof (encoded_words_length k full Hf) as Hwords.
  pose proof (encoded_words_alphabet k full Hf) as Hbody.
  destruct rest as [|r0 [|r1 [|r2 rest]]]; cbn [length] in Hr, Hmod; try lia.
  assert (Hsplit : data = (full ++ [r0]) ++ [r1]).
  { rewrite Hdata, <- app_assoc. reflexivity. }
  assert (Hlast : last data x00 = r1) by (rewrite Hsplit; apply last_last).
  rewrite Hlast in Hlow.
  destruct (encoded_rest_two r0 r1) as (s0 & s1 & pad & Hshape & A0 & A1 & _).
  cbn [encoded_rest] in *.
  destruct (two_byte_rest_overpadded r0 r1 Hlow) as (t0 & t1 & Hw & Hy & Hb & Hs).
  rewrite Hw in *. cbn [app] in Hshape. injection Hshape as -> -> _.
  split.
  - exists (encoded_words full ++ [s0; s1]). split.
    + now rewrite <- app_assoc.
    + rewrite forallb_app, Hbody. cbn [forallb]. now rewrite A0, A1.
  - rewrite (decode_padded_group _ _ _ (encoded_words full) s0 s1 "=" "=" []).
    + rewrite Hbytes, Hb, Hy, Hwords. rewrite Hsplit at 1 2.
      rewrite removelast_last, !length_app, Hf. cbn [length].
      f_equal. Z.div_mod_to_equations. lia.
    + unfold strip in *. now rewrite filter_app, Hs, Hstrip, app_nil_r.
    + assumption.
    + lia.
    + reflexivity.
    + unfold strip in *. rewrite filter_app, Hs, Hstrip. lia.
Qed.

Lemma round_trip_overpadded_witness :
  ((length ["M"%byte; "a"%byte; "n"%byte; "M"%byte; "P"%byte] mod 3 = 2)%nat
   /\ Z.land (byte_val (last ["M"%byte; "a"%byte; "n"%byte; "M"%byte; "P"%byte] x00))
             0x0F = 0)
  /\ forall fresh fresh_chars fresh_bytes,
      (exists body,
          encoded_string fresh ["M"%byte; "a"%byte; "n"%byte; "M"%byte; "P"%byte]
          = body ++ ["="; "="]
          /\ forallb in_alphabet body = true)
      /\ ITBase64DecodedDataCreate fresh_chars fresh_bytes
           (encoded_string fresh ["M"%byte; "a"%byte; "n"%byte; "M"%byte; "P"%byte])
         = (Some ["M"%byte; "a"%byte; "n"%byte; "M"%byte], 4).
Proof.
  assert (Hfit : 3 * encoded_size
                       (Z.of_nat (length ["M"%byte; "a"%byte; "n"%byte; "M"%byte; "P"%byte]))
                 <= UINT_MAX) by (vm_compute; discriminate).
  split; [split; reflexivity|].
  intros fresh fresh_chars fresh_bytes.
  exact (round_trip_overpadded fresh fresh_chars fresh_bytes
           ["M"%byte; "a"%byte; "n"%byte; "M"%byte; "P"%byte] eq_refl eq_refl Hfit).
Defined.

Lemma two_byte_final_word_padding_witness :
  Z.land (byte_val "a"%byte) 0x0F <> 0
  /\ forall fresh,
      encodeWord ["M"%byte; "a"%byte; x00] 0 (malloc fresh 4) 0 1 = text "TWE=".
Proof.
  assert (Hlow : Z.land (byte_val "a"%byte) 0x0F <> 0) by (vm_compute; discriminate).
  split; [exact Hlow|].
  intros fresh. exact (two_byte_final_word_padding fresh "M"%byte "a"%byte Hlow).
Defined.

(** ** Nothing is examined after a padded third character *)

Lemma word_after_padding c0 c1 c3 c3' :
  word_yield c0 c1 "=" c3 = word_yield c0 c1 "=" c3'
  /\ word_bytes c0 c1 "=" c3 = word_bytes c0 c1 "=" c3'
  /\ word_yield c0 c1 "=" c3 < 3.
Proof.
  unfold word_bytes, word_yield, word_cells, decodeWord. cbn [Z.add]. block_simpl.
  change (Ascii.eqb "=" "=") with true.
  split_ifs; cbn [fst snd]; repeat split; lia.
Qed.

(** X15.  Once a processed group has ['='] as its third character, the decoder
    examines nothing further: two texts that agree up to and including that
    character, with compacted lengths that are multiples of four (and within
    the size bound), decode to the same result, whatever their fourth
    character and later groups are, even characters outside the alphabet. *)
Theorem nothing_examined_after_padding fresh_chars fresh_chars' fresh_bytes
        s1 s2 pre c0 c1 tail1 tail2 :
  strip s1 = pre ++ [c0; c1; "="] ++ tail1 ->
  strip s2 = pre ++ [c0; c1; "="] ++ tail2 ->
  all_full pre = true ->
  (length (strip s1) mod 4 = 0)%nat -> (length (strip s2) mod 4 = 0)%nat ->
  3 * Z.of_nat (length (strip s1)) <= UINT_MAX ->
  3 * Z.of_nat (length (strip s2)) <= UINT_MAX ->
  ITBase64DecodedDataCreate fresh_chars fresh_bytes s1
  = ITBase64DecodedDataCreate fresh_chars' fresh_bytes s2.
Proof.
  intros H1 H2 Hfull Hm1 Hm2 Hf1 Hf2.
  rewrite !decode_by_scan by assumption. unfold decoded_result.
  destruct (all_full_length pre Hfull) as [k Hk].
  assert (Hz : forall s : list ascii,
             (length s mod 4 = 0)%nat -> Z.of_nat (length s) mod 4 = 0).
  { intros s Hs. apply Nat.Div0.div_exact in Hs. rewrite Hs.
    Z.div_mod_to_equations. lia. }
  rewrite (Hz _ Hm1), (Hz _ Hm2). cbn [Z.eqb negb].
  rewrite H1, H2 in *. rewrite !length_app in Hm1, Hm2. cbn [length] in Hm1, Hm2.
  destruct tail1 as [|c3 rest1].
  { exfalso. cbn [length] in Hm1. rewrite Hk in Hm1.
    replace (4 * k + (3 + 0))%nat with (3 + k * 4)%nat in Hm1 by lia.
    rewrite Nat.Div0.mod_add in Hm1. discriminate. }
  destruct tail2 as [|c3' rest2].
  { exfalso. cbn [length] in Hm2. rewrite Hk in Hm2.
    replace (4 * k + (3 + 0))%nat with (3 + k * 4)%nat in Hm2 by lia.
    rewrite Nat.Div0.mod_add in Hm2. discriminate. }
  rewrite !(decode_scan_full pre Hfull). cbn [app decode_scan].
  destruct (word_after_padding c0 c1 c3 c3') as (Hy & Hb & Hshort).
  rewrite <- Hy, <- Hb.
  destruct (Z.ltb_spec (word_yield c0 c1 "=" c3) 3); [reflexivity | lia].
Qed.

Lemma nothing_examined_after_padding_witness :
  (strip (text "TWFuTQ==") = text "TWFu" ++ ["T"; "Q"; "="] ++ text "="
   /\ strip (text "TWFuTQ=!!!!!") = text "TWFu" ++ ["T"; "Q"; "="] ++ text "!!!!!"
   /\ all_full (text "TWFu") = true)
  /\ forall fresh_chars fresh_chars' fresh_bytes,
      ITBase64DecodedDataCreate fresh_chars fresh_bytes (text "TWFuTQ==")
      = ITBase64DecodedDataCreate fresh_chars' fresh_bytes (text "TWFuTQ=!!!!!").
Proof.
  assert (Hf1 : 3 * Z.of_nat (length (strip (text "TWFuTQ=="))) <= UINT_MAX)
    by (vm_compute; discriminate).
  assert (Hf2 : 3 * Z.of_nat (length (strip (text "TWFuTQ=!!!!!"))) <= UINT_MAX)
    by (vm_compute; discriminate).
  split; [split; [reflexivity | split; reflexivity]|].
  intros fresh_chars fresh_chars' fresh_bytes.
  exact (nothing_examined_after_padding fresh_chars fresh_chars' fresh_bytes
           (text "TWFuTQ==") (text "TWFuTQ=!!!!!")
           (text "TWFu") "T" "Q" (text "=") (text "!!!!!")
           eq_refl eq_refl eq_refl eq_refl eq_refl Hf1 Hf2).
Defined.
